(** * RAG_AGENT: chunking, ingestion and retrieval

    A shallow embedding of [document_processor.py], [document_ingestion.py]
    and [simple_rag.py], with the properties of the chunker, of the
    ingestion bookkeeping and of the retrieval fallback.

    Conventions.
    - A Python [str] is a [list ascii]; a character is read as the code
      point of the same number, so the texts covered are those over code
      points 0..255.
    - Python integers are [Z]; lengths and [enumerate] indices are [nat].
    - A path is the text of its string form: [Path(s)] and [str(path)]
      are the identity.
    - A [while] loop is a [Fixpoint] on a fuel argument and returns
      [None] when the fuel runs out before the loop exits.
    - Memory does not run out, except in the definitions named
      [.._within], where a list holds at most [heap] chunks.
    - The embedding service, the vector collection, the completion
      service, the file system and the format parsers are parameters.
      Of the collection the state keeps the trace of the [add] calls
      that returned. *)

From Stdlib Require Import ZArith Ascii String DecimalString DecimalNat.
From stdpp Require Import base tactics option list gmap strings.

Local Open Scope Z_scope.

Abbreviation text := (list ascii).

(** A string literal as a text. *)
Definition T (s : string) : text := list_ascii_of_string s.

(** ** Python string primitives *)

Module Py.

(** [len(s)]. *)
Definition len (s : text) : Z := Z.of_nat (length s).

(** [c.isspace()] for a code point below 256: TAB, LF, VT, FF, CR,
    FS, GS, RS, US, SPACE, NEL (0x85) and NBSP (0xA0). *)
Definition isspace (c : ascii) : bool :=
  let n := Z.of_N (N_of_ascii c) in
  ((9 <=? n) && (n <=? 13)) || ((28 <=? n) && (n <=? 32))
  || (n =? 133) || (n =? 160).

(** [s.lstrip()], [s.rstrip()], [s.strip()]. *)
Fixpoint lstrip (s : text) : text :=
  match s with
  | c :: r => if isspace c then lstrip r else s
  | [] => []
  end.

Definition rstrip (s : text) : text := reverse (lstrip (reverse s)).

Definition strip (s : text) : text := rstrip (lstrip s).

(** [s.rfind(c)] for a one-character needle: the highest index at which
    [c] occurs, or [-1]. *)
Fixpoint rfind (c : ascii) (s : text) : Z :=
  match s with
  | [] => -1
  | x :: r =>
      let k := rfind c r in
      if 0 <=? k then k + 1
      else if Ascii.eqb x c then 0 else -1
  end.

(** How a slice bound [i] is clamped for a sequence of length [n]:
    a negative bound counts from the end. *)
Definition clamp (i n : Z) : Z :=
  if i <? 0 then Z.max (i + n) 0 else Z.min i n.

(** [s[lo:hi]]. *)
Definition slice (s : text) (lo hi : Z) : text :=
  let a := clamp lo (len s) in
  let b := clamp hi (len s) in
  take (Z.to_nat (b - a)) (drop (Z.to_nat a) s).

(** [x or d] on an optional integer argument: [None] and [0] are falsy. *)
Definition or_default (x : option Z) (d : Z) : Z :=
  match x with
  | Some v => if v =? 0 then d else v
  | None => d
  end.

(** [str(n)] for a non-negative integer. *)
Definition str_of_nat (n : nat) : text :=
  T (NilEmpty.string_of_uint (Nat.to_uint n)).

(** [len(l)] of a list of strings. *)
Definition len_list (l : list text) : Z := Z.of_nat (length l).

(** Truth value of a [str]: non-empty. *)
Definition truthy (s : text) : bool :=
  match s with [] => false | _ => true end.

End Py.

(** ** [DocumentProcessor] *)

Record DocumentProcessor := mkProcessor {
  chunk_size : Z;
  chunk_overlap : Z;
  max_file_size_mb : Z;
  supported_extensions : list text
}.

(** [Config.SUPPORTED_EXTENSIONS] and the constructor's fallback. *)
Definition default_extensions : list text :=
  [T ".pdf"; T ".docx"; T ".xlsx"; T ".xls"].

(** [DocumentProcessor.__init__]: the four values are stored as given;
    an empty or missing extension list is replaced by the default. *)
Definition DocumentProcessor_init (chunk_size chunk_overlap max_file_size_mb : Z)
    (supported_extensions : option (list text)) : DocumentProcessor :=
  mkProcessor chunk_size chunk_overlap max_file_size_mb
    (match supported_extensions with
     | Some (e :: es) => e :: es
     | _ => default_extensions
     end).

(** ** [DocumentProcessor.chunk_text] *)

(** [k > chunk_size * 0.8].  Python compares an [int] with a [float]
    exactly, and for a chunk size below 2^49 the double nearest to
    [chunk_size * 0.8] lies on the same side of every integer as the
    rational [4 * chunk_size / 5] (and equals it when that is an
    integer), so the test is [4 * chunk_size < 5 * k]. *)
Definition beyond_80pct (k cs : Z) : bool := 4 * cs <? 5 * k.

(** The value of [end] after the boundary search of one iteration. *)
Definition cut_end (txt : text) (cs start : Z) : Z :=
  let end_ := start + cs in
  let chunk := Py.slice txt start end_ in
  if end_ <? Py.len txt then
    let last_period := Py.rfind "."%char chunk in
    let last_space := Py.rfind " "%char chunk in
    if beyond_80pct last_period cs then start + last_period + 1
    else if beyond_80pct last_space cs then start + last_space
    else end_
  else end_.

(** The [while] loop, from the state ([start], [chunks]). *)
Fixpoint chunk_loop (fuel : nat) (txt : text) (cs ov start : Z)
    (chunks : list text) : option (list text) :=
  if start <? Py.len txt then
    match fuel with
    | O => None
    | S fuel' =>
        let end_ := cut_end txt cs start in
        let chunk_text := Py.strip (Py.slice txt start end_) in
        let chunks :=
          if Py.truthy chunk_text then chunks ++ [chunk_text] else chunks in
        let start := end_ - ov in
        if Py.len txt <=? start then Some chunks
        else chunk_loop fuel' txt cs ov start chunks
    end
  else Some chunks.

Definition effective_chunk_size (p : DocumentProcessor) (arg : option Z) : Z :=
  Py.or_default arg (chunk_size p).

Definition effective_overlap (p : DocumentProcessor) (arg : option Z) : Z :=
  Py.or_default arg (chunk_overlap p).

Definition chunk_text (fuel : nat) (p : DocumentProcessor) (txt : text)
    (chunk_size_arg overlap_arg : option Z) : option (list text) :=
  let cs := effective_chunk_size p chunk_size_arg in
  let ov := effective_overlap p overlap_arg in
  if Py.len txt <=? cs then Some [txt]
  else chunk_loop fuel txt cs ov 0 [].

(** The windows [(start, end)] the loop cuts, one per iteration. *)
Fixpoint chunk_windows (fuel : nat) (txt : text) (cs ov start : Z)
    : option (list (Z * Z)) :=
  if start <? Py.len txt then
    match fuel with
    | O => None
    | S fuel' =>
        let end_ := cut_end txt cs start in
        let start' := end_ - ov in
        if Py.len txt <=? start' then Some [(start, end_)]
        else cons (start, end_) <$> chunk_windows fuel' txt cs ov start'
    end
  else Some [].

(** The chunk a window contributes, if any. *)
Definition window_chunk (txt : text) (w : Z * Z) : option text :=
  let c := Py.strip (Py.slice txt w.1 w.2) in
  if Py.truthy c then Some c else None.

Definition default_processor : DocumentProcessor :=
  DocumentProcessor_init 1000 200 50 None.


(** ** Values shared by the pipelines *)

(** A call that may raise: the value, or the text of the exception. *)
Inductive result (A : Type) : Type :=
  | Ok (a : A)
  | Raise (msg : text).
Arguments Ok {A} a.
Arguments Raise {A} msg.

(** The values a metadata dictionary holds: strings, integers, and the
    floats the code computes, each the true quotient of two integers. *)
Inductive MetaValue : Type :=
  | MStr (s : text)
  | MInt (n : Z)
  | MFloatDiv (num den : Z).

(** A metadata dictionary. *)
Abbreviation Metadata := (gmap string MetaValue).

(** ** The outside world

    The file system and the parsers are read-only functions of the
    path.  The embedding service, the collection and the completion
    service are functions of a state of the world that every call may
    change; a call returns a value or raises. *)
Class Externals : Type := {
  World : Type;
  Embedding : Type;
  Float : Type;
  (* pathlib *)
  path_exists : text -> bool;
  path_is_dir : text -> bool;
  st_size : text -> Z;
  path_suffix : text -> text;
  path_name : text -> text;
  path_stem : text -> text;
  rglob : text -> text -> list text;
  str_lower : text -> text;
  (* [f"{x:.1f}"] of the float [bytes / (1024 * 1024)] *)
  format_mb : Z -> text;
  (* the message of the [TypeError] of [Path(v)] for a [v] that is no string *)
  path_type_error : MetaValue -> text;
  (* PyMuPDF, python-docx, pandas *)
  extract_from_pdf : text -> result text;
  extract_from_docx : text -> result text;
  extract_from_excel : text -> result text;
  (* [client.embeddings.create(model=, input=).data[0].embedding] *)
  embeddings_create : text -> text -> World -> result Embedding * World;
  (* [collection.add(embeddings=, documents=, metadatas=, ids=)] *)
  collection_add_call :
    text -> Embedding -> text -> Metadata -> World -> result unit * World;
  (* [collection.query(query_embeddings=, n_results=)]: the three lists
     of the answer the code reads *)
  collection_query :
    Embedding -> Z -> World ->
    result (option (list (list text)) * option (list (list Metadata))
            * option (list (list Float))) * World;
  (* [client.chat.completions.create(model=, messages=, temperature=)
     .choices[0].message.content] *)
  chat_completions_create : text -> text -> Float -> World -> result text * World
}.

(** [str(z)] for an integer. *)
Definition str_of_Z (z : Z) : text :=
  T (NilEmpty.string_of_int (Z.to_int z)).

(** ** [DocumentProcessor.extract_text_from_file] *)

Record ExtractionResult := mkExtraction {
  ex_success : bool;
  ex_text : text;
  ex_error : option text;
  ex_metadata : Metadata
}.

Section Processor.
Context `{Externals}.

Definition extract_text_from_file (p : DocumentProcessor) (file_path : text)
    : ExtractionResult :=
  if negb (path_exists file_path) then
    mkExtraction false [] (Some (T "File not found: " ++ file_path)) ∅
  else
    let size := st_size file_path in
    (* [size / (1024 * 1024) > max_file_size_mb]: the division is by a
       power of two, hence exact *)
    if max_file_size_mb p * (1024 * 1024) <? size then
      mkExtraction false []
        (Some (T "File too large: " ++ format_mb size ++ T "MB (max: "
               ++ str_of_Z (max_file_size_mb p) ++ T "MB)"))
        {[ "file_size_mb"%string := MFloatDiv size (1024 * 1024) ]}
    else
      let suffix := str_lower (path_suffix file_path) in
      if negb (bool_decide (suffix ∈ supported_extensions p)) then
        mkExtraction false []
          (Some (T "Unsupported file type: " ++ path_suffix file_path))
          {[ "file_extension"%string := MStr (path_suffix file_path) ]}
      else
        let metadata : Metadata :=
          <[ "file_extension"%string := MStr suffix ]>
          (<[ "file_size_mb"%string := MFloatDiv size (1024 * 1024) ]>
          (<[ "file_path"%string := MStr file_path ]>
          {[ "filename"%string := MStr (path_name file_path) ]})) in
        let extracted :=
          if bool_decide (suffix = T ".pdf") then extract_from_pdf file_path
          else if bool_decide (suffix = T ".docx") then extract_from_docx file_path
          else if bool_decide (suffix ∈ [T ".xlsx"; T ".xls"])
               then extract_from_excel file_path
          else Ok [] in
        match extracted with
        | Raise e =>
            mkExtraction false [] (Some (T "Extraction error: " ++ e)) metadata
        | Ok txt =>
            if negb (Py.truthy (Py.strip txt)) then
              mkExtraction false []
                (Some (T "No text content extracted from " ++ path_name file_path))
                metadata
            else
              mkExtraction true txt None
                (<[ "text_length"%string := MInt (Py.len txt) ]> metadata)
        end.

(** ** [DocumentProcessor.process_file] *)

Record ProcessResult := mkProcess {
  pr_success : bool;
  pr_chunks : list text;
  pr_metadata : Metadata;
  pr_error : option text
}.

(** [sum(len(chunk) for chunk in chunks)]. *)
Definition total_length (chunks : list text) : Z :=
  foldr (fun c acc => Py.len c + acc) 0 chunks.

(** [process_file] where memory never runs out.  On a string
    [chunk_text] raises nothing of its own, so the [except] branch of
    lines 219-226 is not reached here, and [None] is a chunker that has
    not returned within [fuel].  [process_file_within] below runs the
    same lines where memory does run out, and has that branch. *)
Definition process_file (fuel : nat) (p : DocumentProcessor) (file_path : text)
    : option ProcessResult :=
  let extraction_result := extract_text_from_file p file_path in
  if negb (ex_success extraction_result) then
    Some (mkProcess false [] (ex_metadata extraction_result)
            (ex_error extraction_result))
  else
    chunks ← chunk_text fuel p (ex_text extraction_result) None None;
    Some (mkProcess true chunks
            (<[ "average_chunk_size"%string :=
                  match chunks with
                  | [] => MInt 0
                  | _ => MFloatDiv (total_length chunks) (Py.len_list chunks)
                  end ]>
             (<[ "chunk_count"%string := MInt (Py.len_list chunks) ]>
              (ex_metadata extraction_result)))
            None).

(** ** [process_file] in bounded memory

    The one exception that reaches the [except] branch around
    [chunk_text] is the [MemoryError] of [chunks.append] when the list
    of chunks outgrows what the interpreter can hold.  The loop below
    is [chunk_loop] where a list holds at most [heap] chunks: an
    [append] to a list that is full raises, with [oom] as the text of
    the error, and so does the one-chunk list of the early return when
    there is room for none. *)
Fixpoint chunk_loop_within (heap : nat) (oom : text) (fuel : nat) (txt : text)
    (cs ov start : Z) (chunks : list text) : option (result (list text)) :=
  if start <? Py.len txt then
    match fuel with
    | O => None
    | S fuel' =>
        let end_ := cut_end txt cs start in
        let chunk_text := Py.strip (Py.slice txt start end_) in
        if Py.truthy chunk_text && (heap <=? length chunks)%nat then
          Some (Raise oom)
        else
          let chunks :=
            if Py.truthy chunk_text then chunks ++ [chunk_text] else chunks in
          let start := end_ - ov in
          if Py.len txt <=? start then Some (Ok chunks)
          else chunk_loop_within heap oom fuel' txt cs ov start chunks
    end
  else Some (Ok chunks).

Definition chunk_text_within (heap : nat) (oom : text) (fuel : nat)
    (p : DocumentProcessor) (txt : text) (chunk_size_arg overlap_arg : option Z)
    : option (result (list text)) :=
  let cs := effective_chunk_size p chunk_size_arg in
  let ov := effective_overlap p overlap_arg in
  if Py.len txt <=? cs then
    if (heap <=? 0)%nat then Some (Raise oom) else Some (Ok [txt])
  else chunk_loop_within heap oom fuel txt cs ov 0 [].

(** [process_file] with its [try] and [except] (lines 205-226). *)
Definition process_file_within (heap : nat) (oom : text) (fuel : nat)
    (p : DocumentProcessor) (file_path : text) : option ProcessResult :=
  let extraction_result := extract_text_from_file p file_path in
  if negb (ex_success extraction_result) then
    Some (mkProcess false [] (ex_metadata extraction_result)
            (ex_error extraction_result))
  else
    outcome ← chunk_text_within heap oom fuel p (ex_text extraction_result) None None;
    match outcome with
    | Ok chunks =>
        Some (mkProcess true chunks
                (<[ "average_chunk_size"%string :=
                      match chunks with
                      | [] => MInt 0
                      | _ => MFloatDiv (total_length chunks) (Py.len_list chunks)
                      end ]>
                 (<[ "chunk_count"%string := MInt (Py.len_list chunks) ]>
                  (ex_metadata extraction_result)))
                None)
    | Raise e =>
        Some (mkProcess false [] (ex_metadata extraction_result)
                (Some (T "Chunking error: " ++ e)))
    end.

(** ** [DocumentProcessor.process_folder] *)

Record ProcessedFile := mkProcessed {
  pf_file_path : text;
  pf_chunks : list text;
  pf_metadata : Metadata
}.

Record FailedFile := mkFailed {
  ff_file_path : text;
  ff_error : option text;
  ff_metadata : Metadata
}.

Record FolderResult := mkFolder {
  fr_success : bool;
  fr_processed_files : list ProcessedFile;
  fr_failed_files : list FailedFile;
  fr_total_chunks : Z;
  fr_error : option text
}.

(** The files found: one [rglob] per extension, concatenated. *)
Definition supported_files (p : DocumentProcessor) (folder_path : text)
    : list text :=
  concat (map (fun ext => rglob folder_path (T "*" ++ ext))
              (supported_extensions p)).

(** The [for] loop over the files found. *)
Fixpoint process_folder_loop (fuel : nat) (p : DocumentProcessor)
    (files : list text) (processed_files : list ProcessedFile)
    (failed_files : list FailedFile) (total_chunks : Z)
    : option (list ProcessedFile * list FailedFile * Z) :=
  match files with
  | [] => Some (processed_files, failed_files, total_chunks)
  | file_path :: rest =>
      r ← process_file fuel p file_path;
      if pr_success r then
        process_folder_loop fuel p rest
          (processed_files ++ [mkProcessed file_path (pr_chunks r) (pr_metadata r)])
          failed_files
          (total_chunks + Py.len_list (pr_chunks r))
      else
        process_folder_loop fuel p rest
          processed_files
          (failed_files ++ [mkFailed file_path (pr_error r) (pr_metadata r)])
          total_chunks
  end.

Definition process_folder (fuel : nat) (p : DocumentProcessor) (folder_path : text)
    : option FolderResult :=
  if negb (path_exists folder_path) then
    Some (mkFolder false [] [] 0 (Some (T "Folder not found: " ++ folder_path)))
  else if negb (path_is_dir folder_path) then
    Some (mkFolder false [] [] 0
            (Some (T "Path is not a directory: " ++ folder_path)))
  else
    match supported_files p folder_path with
    | [] =>
        Some (mkFolder true [] [] 0
                (Some (T "No supported files found in " ++ folder_path)))
    | files =>
        '(processed_files, failed_files, total_chunks) ←
          process_folder_loop fuel p files [] [] 0;
        Some (mkFolder true processed_files failed_files total_chunks None)
    end.

(** ** [process_folder] in bounded memory

    The same loop and the same function over [process_file_within]. *)
Fixpoint process_folder_loop_within (heap : nat) (oom : text) (fuel : nat)
    (p : DocumentProcessor) (files : list text)
    (processed_files : list ProcessedFile) (failed_files : list FailedFile)
    (total_chunks : Z) : option (list ProcessedFile * list FailedFile * Z) :=
  match files with
  | [] => Some (processed_files, failed_files, total_chunks)
  | file_path :: rest =>
      r ← process_file_within heap oom fuel p file_path;
      if pr_success r then
        process_folder_loop_within heap oom fuel p rest
          (processed_files ++ [mkProcessed file_path (pr_chunks r) (pr_metadata r)])
          failed_files
          (total_chunks + Py.len_list (pr_chunks r))
      else
        process_folder_loop_within heap oom fuel p rest
          processed_files
          (failed_files ++ [mkFailed file_path (pr_error r) (pr_metadata r)])
          total_chunks
  end.

Definition process_folder_within (heap : nat) (oom : text) (fuel : nat)
    (p : DocumentProcessor) (folder_path : text) : option FolderResult :=
  if negb (path_exists folder_path) then
    Some (mkFolder false [] [] 0 (Some (T "Folder not found: " ++ folder_path)))
  else if negb (path_is_dir folder_path) then
    Some (mkFolder false [] [] 0
            (Some (T "Path is not a directory: " ++ folder_path)))
  else
    match supported_files p folder_path with
    | [] =>
        Some (mkFolder true [] [] 0
                (Some (T "No supported files found in " ++ folder_path)))
    | files =>
        '(processed_files, failed_files, total_chunks) ←
          process_folder_loop_within heap oom fuel p files [] [] 0;
        Some (mkFolder true processed_files failed_files total_chunks None)
    end.

End Processor.

(** ** [DocumentIngestion] *)

Section Ingestion.
Context `{Externals}.

(** The record of one [collection.add] call that returned. *)
Record StoredRecord := mkRecord {
  rec_id : text;
  rec_embedding : Embedding;
  rec_document : text;
  rec_metadata : Metadata
}.

(** The state the ingestion runs in: the world, and the records of
    the [collection.add] calls that returned, oldest first.  [stored]
    is the trace of what the code handed over and the collection
    accepted: an [add] that raises leaves it as it was.  What the
    store keeps of an accepted record is the store's own matter and
    part of [world]; a store keyed by id may keep less than it
    accepted. *)
Record State := mkState {
  world : World;
  stored : list StoredRecord
}.

Record DocumentIngestion := mkIngestion {
  embedding_model : text;
  doc_processor : DocumentProcessor
}.

(** [DocumentIngestion.__init__]. *)
Definition DocumentIngestion_init (embedding_model : text)
    (chunk_size chunk_overlap max_file_size_mb : Z)
    (supported_extensions : option (list text)) : DocumentIngestion :=
  mkIngestion embedding_model
    (DocumentProcessor_init chunk_size chunk_overlap max_file_size_mb
       (Some (default default_extensions supported_extensions))).

(** [get_embedding]: an exception of the client becomes [None]. *)
Definition get_embedding (model : text) (txt : text) (w : World)
    : option Embedding * World :=
  match embeddings_create model txt w with
  | (Ok e, w') => (Some e, w')
  | (Raise _, w') => (None, w')
  end.

(** [self.collection.add(...)] with one record: the call is made in
    the world of the state, and a call that returns is entered in the
    trace. *)
Definition collection_add (r : StoredRecord) (st : State) : result unit * State :=
  match collection_add_call (rec_id r) (rec_embedding r) (rec_document r)
          (rec_metadata r) (world st) with
  | (Ok tt, w') => (Ok tt, mkState w' (stored st ++ [r]))
  | (Raise msg, w') => (Raise msg, mkState w' (stored st))
  end.

(** [f"{Path(metadata['filename']).stem}_{i}"]: a missing key raises
    [KeyError], whose text is the quoted key; a value that is no string
    raises [TypeError]. *)
Definition doc_id (metadata : Metadata) (i : nat) : result text :=
  match metadata !! "filename"%string with
  | None => Raise (T "'filename'")
  | Some (MStr name) => Ok (path_stem name ++ T "_" ++ Py.str_of_nat i)
  | Some v => Raise (path_type_error v)
  end.

(** The [for i, chunk in enumerate(chunks)] loop, from index [i] with
    the counter at [chunks_added]. *)
Fixpoint add_chunks_loop (self : DocumentIngestion) (metadata : Metadata)
    (i : nat) (chunks : list text) (chunks_added : nat) (st : State)
    : result nat * State :=
  match chunks with
  | [] => (Ok chunks_added, st)
  | chunk :: rest =>
      if negb (Py.truthy (Py.strip chunk)) then
        add_chunks_loop self metadata (S i) rest chunks_added st
      else
        let '(embedding, w) := get_embedding (embedding_model self) chunk (world st) in
        let st := mkState w (stored st) in
        match embedding with
        | None => add_chunks_loop self metadata (S i) rest chunks_added st
        | Some embedding =>
            match doc_id metadata i with
            | Raise msg => (Raise msg, st)
            | Ok id =>
                let r := mkRecord id embedding chunk
                           (<[ "chunk_id"%string := MInt (Z.of_nat i) ]> metadata) in
                match collection_add r st with
                | (Raise msg, st) => (Raise msg, st)
                | (Ok tt, st) =>
                    add_chunks_loop self metadata (S i) rest (S chunks_added) st
                end
            end
        end
  end.

Record AddResult := mkAdd {
  add_success : bool;
  chunks_added : nat;
  add_message : text
}.

(** [add_document_chunks]: the loop, the two messages that read
    [metadata['filename']], and the [except] branch. *)
Definition add_document_chunks (self : DocumentIngestion) (chunks : list text)
    (metadata : Metadata) (st : State) : AddResult * State :=
  let failure msg := mkAdd false 0 (T "Error adding chunks: " ++ msg) in
  match add_chunks_loop self metadata 0 chunks 0 st with
  | (Raise msg, st) => (failure msg, st)
  | (Ok n, st) =>
      match metadata !! "filename"%string with
      | None => (failure (T "'filename'"), st)
      | Some _ =>
          (mkAdd true n (T "Successfully added " ++ Py.str_of_nat n ++ T " chunks"),
           st)
      end
  end.

(** The result of [process_and_add_document]: the processing result
    when processing failed, else the summary of the addition. *)
Record DocumentResult := mkDocument {
  dr_success : bool;
  dr_message : text;
  dr_chunks_added : nat;
  dr_file_metadata : Metadata
}.

Definition process_and_add_document (fuel : nat) (self : DocumentIngestion)
    (file_path : text) (st : State)
    : option ((ProcessResult + DocumentResult) * State) :=
  processing_result ← process_file fuel (doc_processor self) file_path;
  if negb (pr_success processing_result) then Some (inl processing_result, st)
  else
    let '(add_result, st) :=
      add_document_chunks self (pr_chunks processing_result)
        (pr_metadata processing_result) st in
    Some (inr (mkDocument (add_success add_result) (add_message add_result)
                 (chunks_added add_result) (pr_metadata processing_result)),
          st).

Record SuccessfulFile := mkSuccessful {
  sf_file_path : text;
  sf_chunks_added : nat;
  sf_metadata : Metadata
}.

Record IngestFolderResult := mkIngestFolder {
  if_success : bool;
  if_message : text;
  if_files_processed : nat;
  if_total_chunks_added : nat;
  if_successful_files : list SuccessfulFile;
  if_failed_files : list FailedFile
}.

(** The [for file_data in processing_result["processed_files"]] loop. *)
Fixpoint add_folder_loop (self : DocumentIngestion)
    (files : list ProcessedFile) (total_chunks_added : nat)
    (successful_files : list SuccessfulFile) (failed_files : list FailedFile)
    (st : State) : nat * list SuccessfulFile * list FailedFile * State :=
  match files with
  | [] => (total_chunks_added, successful_files, failed_files, st)
  | file_data :: rest =>
      let '(add_result, st) :=
        add_document_chunks self (pf_chunks file_data) (pf_metadata file_data) st in
      if add_success add_result then
        add_folder_loop self rest
          (total_chunks_added + chunks_added add_result)
          (successful_files ++
             [mkSuccessful (pf_file_path file_data) (chunks_added add_result)
                (pf_metadata file_data)])
          failed_files st
      else
        add_folder_loop self rest total_chunks_added successful_files
          (failed_files ++
             [mkFailed (pf_file_path file_data) (Some (add_message add_result))
                (pf_metadata file_data)])
          st
  end.

Definition process_and_add_folder (fuel : nat) (self : DocumentIngestion)
    (folder_path : text) (st : State)
    : option ((FolderResult + IngestFolderResult) * State) :=
  processing_result ← process_folder fuel (doc_processor self) folder_path;
  if negb (fr_success processing_result) then Some (inl processing_result, st)
  else
    let '(total_chunks_added, successful_files, failed_files, st) :=
      add_folder_loop self (fr_processed_files processing_result) 0 []
        (fr_failed_files processing_result) st in
    Some (inr (mkIngestFolder true
                 (T "Processed " ++ Py.str_of_nat (length successful_files)
                  ++ T " files, added " ++ Py.str_of_nat total_chunks_added
                  ++ T " chunks")
                 (length successful_files) total_chunks_added
                 successful_files failed_files),
          st).

(** [process_and_add_folder] over [process_folder_within]. *)
Definition process_and_add_folder_within (heap : nat) (oom : text) (fuel : nat)
    (self : DocumentIngestion) (folder_path : text) (st : State)
    : option ((FolderResult + IngestFolderResult) * State) :=
  processing_result ←
    process_folder_within heap oom fuel (doc_processor self) folder_path;
  if negb (fr_success processing_result) then Some (inl processing_result, st)
  else
    let '(total_chunks_added, successful_files, failed_files, st) :=
      add_folder_loop self (fr_processed_files processing_result) 0 []
        (fr_failed_files processing_result) st in
    Some (inr (mkIngestFolder true
                 (T "Processed " ++ Py.str_of_nat (length successful_files)
                  ++ T " files, added " ++ Py.str_of_nat total_chunks_added
                  ++ T " chunks")
                 (length successful_files) total_chunks_added
                 successful_files failed_files),
          st).

End Ingestion.

(** ** [SimpleRAG] *)

Section Retrieval.
Context `{Externals}.

(** The fields of [Config] the retrieval reads. *)
Record Config := mkConfig {
  OPENAI_API_KEY : option text;
  OPENAI_MODEL : text;
  OPENAI_TEMPERATURE : Float;
  CHROMA_EMBEDDING_MODEL : text;
  DEFAULT_RETRIEVAL_K : Z
}.

(** [SimpleRAG.__init__]: a missing or empty key raises [ValueError]. *)
Definition SimpleRAG_init (config : Config) : result Config :=
  match OPENAI_API_KEY config with
  | Some (c :: k) => Ok config
  | _ => Raise (T "OpenAI API key not found in environment variables or config")
  end.

Record Source := mkSource {
  src_content : text;
  src_metadata : Metadata;
  src_distance : option Float
}.

Record QueryResult := mkQuery {
  qr_success : bool;
  qr_answer : text;
  qr_sources : list Source
}.

Definition no_information : text :=
  T "I couldn't find any relevant information to answer your question.".

(** [sep.join(parts)]. *)
Fixpoint join (sep : text) (parts : list text) : text :=
  match parts with
  | [] => []
  | [p] => p
  | p :: rest => p ++ sep ++ join sep rest
  end.

Definition newline : text := ["010"%char].

(** The prompt: the lines after the first are indented by 20 spaces. *)
Definition prompt_of (context question : text) : text :=
  T "Based on the following context from documents, answer the question. If you can't answer based on the context, say so."
  ++ newline ++ newline
  ++ T "                    Context: " ++ context ++ newline
  ++ T "                    Question: " ++ question ++ newline
  ++ T "                    Answer:".

(** [xs[0][i] if xs else fallback]: an empty or missing outer list is
    falsy; otherwise a short list raises [IndexError]. *)
Definition first_row_at {A B : Type} (xs : option (list (list A))) (i : nat)
    (found : A -> B) (fallback : B) : result B :=
  match xs with
  | None | Some [] => Ok fallback
  | Some (row :: _) =>
      match row !! i with
      | Some x => Ok (found x)
      | None => Raise (T "list index out of range")
      end
  end.

(** The [for i in range(len(results['documents'][0]))] loop, from
    index [i] over the remaining documents. *)
Fixpoint sources_loop (metadatas : option (list (list Metadata)))
    (distances : option (list (list Float))) (i : nat) (docs : list text)
    (sources : list Source) : result (list Source) :=
  match docs with
  | [] => Ok sources
  | d :: rest =>
      match first_row_at metadatas i id ∅ with
      | Raise msg => Raise msg
      | Ok m =>
          match first_row_at distances i Some None with
          | Raise msg => Raise msg
          | Ok dist =>
              sources_loop metadatas distances (S i) rest
                (sources ++ [mkSource d m dist])
          end
      end
  end.

Definition answer_question (config : Config) (question : text)
    (n_results : option Z) (w : World) : QueryResult * World :=
  let n_results := Py.or_default n_results (DEFAULT_RETRIEVAL_K config) in
  let failure msg := mkQuery false (T "Error generating answer: " ++ msg) [] in
  match get_embedding (CHROMA_EMBEDDING_MODEL config) question w with
  | (None, w) => (mkQuery false (T "Error generating query embedding") [], w)
  | (Some query_embedding, w) =>
      match collection_query query_embedding n_results w with
      | (Raise msg, w) => (failure msg, w)
      | (Ok (documents, metadatas, distances), w) =>
          match documents with
          | None | Some [] | Some ([] :: _) => (mkQuery true no_information [], w)
          | Some (docs :: _) =>
              let context := join (newline ++ newline) docs in
              let prompt := prompt_of context question in
              match chat_completions_create (OPENAI_MODEL config) prompt
                      (OPENAI_TEMPERATURE config) w with
              | (Raise msg, w) => (failure msg, w)
              | (Ok answer, w) =>
                  match sources_loop metadatas distances 0 docs [] with
                  | Raise msg => (failure msg, w)
                  | Ok sources => (mkQuery true answer sources, w)
                  end
              end
          end
      end
  end.

End Retrieval.

(** ** A small world to run the pipelines in

    Three PDF files in the folder [docs]: [a.pdf] holds a sentence,
    [b.pdf] cannot be opened, and the collection refuses the text of
    [c.pdf].  A state of the world is the number of calls made. *)
Definition demo_externals : Externals := {|
  World := nat;
  Embedding := Z;
  Float := Z;
  path_exists := fun _ => true;
  path_is_dir := fun p => bool_decide (p = T "docs");
  st_size := fun _ => 2048;
  path_suffix := fun p => drop (length p - 4) p;
  path_name := fun p => p;
  path_stem := fun p => take (length p - 4) p;
  rglob := fun folder pattern =>
    if bool_decide (folder = T "docs") && bool_decide (pattern = T "*.pdf")
    then [T "a.pdf"; T "b.pdf"; T "c.pdf"] else [];
  str_lower := fun s => s;
  format_mb := fun _ => T "0.0";
  path_type_error := fun _ => T "expected str, bytes or os.PathLike object";
  extract_from_pdf := fun p =>
    if bool_decide (p = T "a.pdf") then Ok (T "Alpha beta. Gamma")
    else if bool_decide (p = T "b.pdf") then Raise (T "cannot open broken document")
    else Ok (T "boom");
  extract_from_docx := fun _ => Ok [];
  extract_from_excel := fun _ => Ok [];
  embeddings_create := fun _ txt w =>
    if bool_decide (txt = T "???") then (Raise (T "rate limit"), S w)
    else (Ok (Py.len txt), S w);
  collection_add_call := fun _ _ document _ w =>
    if bool_decide (document = T "boom") then (Raise (T "disk full"), S w)
    else (Ok tt, S w);
  collection_query := fun _ _ w => (Ok (Some [[]], Some [[]], Some [[]]), S w);
  chat_completions_create := fun _ _ _ w => (Ok (T "42"), S w)
|}.

Definition demo_ingestion : @DocumentIngestion :=
  DocumentIngestion_init (T "text-embedding-3-small") 1000 200 50 None.

Definition demo_state : @State demo_externals := mkState (0%nat : @World demo_externals) [].

Definition demo_metadata : Metadata :=
  {[ "filename"%string := MStr (T "notes.pdf") ]}.

Definition demo_config : @Config demo_externals :=
  mkConfig (Some (T "sk-test")) (T "gpt-4o-mini") (0 : @Float demo_externals)
    (T "text-embedding-3-small") 5.

(** ** A second small world

    The same files, a collection that accepts every record, and a query
    whose answer depends on the number of results asked for: two
    documents with their metadata and distances for 2, the same two
    documents with one entry of metadata only for 3, nothing
    otherwise. *)
Definition quiet_externals : Externals := {|
  World := nat;
  Embedding := Z;
  Float := Z;
  path_exists := fun _ => true;
  path_is_dir := fun p => bool_decide (p = T "docs");
  st_size := fun _ => 2048;
  path_suffix := fun p => drop (length p - 4) p;
  path_name := fun p => p;
  path_stem := fun p => take (length p - 4) p;
  rglob := fun folder pattern =>
    if bool_decide (folder = T "docs") && bool_decide (pattern = T "*.pdf")
    then [T "a.pdf"; T "b.pdf"; T "c.pdf"] else [];
  str_lower := fun s => s;
  format_mb := fun _ => T "0.0";
  path_type_error := fun _ => T "expected str, bytes or os.PathLike object";
  extract_from_pdf := fun p =>
    if bool_decide (p = T "a.pdf") then Ok (T "Alpha beta. Gamma")
    else if bool_decide (p = T "b.pdf") then Raise (T "cannot open broken document")
    else Ok (T "boom");
  extract_from_docx := fun _ => Ok [];
  extract_from_excel := fun _ => Ok [];
  embeddings_create := fun _ txt w =>
    if bool_decide (txt = T "???") then (Raise (T "rate limit"), S w)
    else (Ok (Py.len txt), S w);
  collection_add_call := fun _ _ _ _ w => (Ok tt, S w);
  collection_query := fun _ k w =>
    if k =? 2 then
      (Ok (Some [[T "alpha"; T "beta"]],
           Some [[ {[ "filename"%string := MStr (T "a.pdf") ]};
                   {[ "filename"%string := MStr (T "c.pdf") ]} ]],
           Some [[1; 4]]), S w)
    else if k =? 3 then
      (Ok (Some [[T "alpha"; T "beta"]],
           Some [[ {[ "filename"%string := MStr (T "a.pdf") ]} ]],
           None), S w)
    else (Ok (Some [[]], None, None), S w);
  chat_completions_create := fun _ _ _ w => (Ok (T "42"), S w)
|}.

Definition quiet_state : @State quiet_externals :=
  mkState (0%nat : @World quiet_externals) [].

Definition quiet_config : @Config quiet_externals :=
  mkConfig (Some (T "sk-test")) (T "gpt-4o-mini") (0 : @Float quiet_externals)
    (T "text-embedding-3-small") 5.

(** A processor that also accepts plain text files, which no parser
    handles. *)
Definition text_processor : DocumentProcessor :=
  DocumentProcessor_init 1000 200 50 (Some [T ".pdf"; T ".txt"]).

(** An ingestion that looks for Word documents only. *)
Definition docx_ingestion : @DocumentIngestion :=
  DocumentIngestion_init (T "text-embedding-3-small") 1000 200 50 (Some [T ".docx"]).

(** ** A third small world

    Two PDF files in the folder [docs]: the text of [pad.pdf] is ten
    spaces and one letter, the text of [ok.pdf] is one word.  A third
    file, [run.pdf], lies elsewhere; its text is one letter eleven
    times.  The services accept every call. *)
Definition padded_externals : Externals := {|
  World := nat;
  Embedding := Z;
  Float := Z;
  path_exists := fun _ => true;
  path_is_dir := fun p => bool_decide (p = T "docs");
  st_size := fun _ => 2048;
  path_suffix := fun p => drop (length p - 4) p;
  path_name := fun p => p;
  path_stem := fun p => take (length p - 4) p;
  rglob := fun folder pattern =>
    if bool_decide (folder = T "docs") && bool_decide (pattern = T "*.pdf")
    then [T "pad.pdf"; T "ok.pdf"] else [];
  str_lower := fun s => s;
  format_mb := fun _ => T "0.0";
  path_type_error := fun _ => T "expected str, bytes or os.PathLike object";
  extract_from_pdf := fun p =>
    if bool_decide (p = T "pad.pdf") then Ok (T "          a")
    else if bool_decide (p = T "run.pdf") then Ok (T "aaaaaaaaaaa")
    else Ok (T "fine");
  extract_from_docx := fun _ => Ok [];
  extract_from_excel := fun _ => Ok [];
  embeddings_create := fun _ txt w => (Ok (Py.len txt), S w);
  collection_add_call := fun _ _ _ _ w => (Ok tt, S w);
  collection_query := fun _ _ w => (Ok (Some [[]], None, None), S w);
  chat_completions_create := fun _ _ _ w => (Ok (T "42"), S w)
|}.

(** An ingestion with chunk size 10 and overlap 9. *)
Definition narrow_ingestion : @DocumentIngestion :=
  DocumentIngestion_init (T "text-embedding-3-small") 10 9 50 None.

(** A processor whose overlap equals its chunk size of 10. *)
Definition even_processor : DocumentProcessor :=
  DocumentProcessor_init 10 10 50 None.

(** An ingestion with chunk size 10 and overlap 2. *)
Definition short_ingestion : @DocumentIngestion :=
  DocumentIngestion_init (T "text-embedding-3-small") 10 2 50 None.

(** ** Vocabulary of the properties *)

(** [i] is the offset of the last [c] in [w], or [-1] when [w] has none. *)
Definition last_index (c : ascii) (w : text) (i : Z) : Prop :=
  (i = -1 /\ forall j : nat, w !! j <> Some c) \/
  (0 <= i /\ w !! Z.to_nat i = Some c /\
   forall j : nat, i < Z.of_nat j -> w !! j <> Some c).

(** [ws] is the run of windows from [start]: each window ends where
    [cut_end] says, the next one starts [ov] before that end, and the
    run stops with the first window whose successor would start at or
    past the end of the text. *)
Fixpoint chained (txt : text) (cs ov start : Z) (ws : list (Z * Z)) : Prop :=
  match ws with
  | [] => False
  | w :: rest =>
      w.1 = start /\ w.2 = cut_end txt cs start /\
      match rest with
      | [] => Py.len txt <= w.2 - ov
      | _ :: _ => w.2 - ov < Py.len txt /\ chained txt cs ov (w.2 - ov) rest
      end
  end.

(** The loop makes progress when the overlap is at most 80% of a
    positive chunk size. *)
Definition progressing (cs ov : Z) : Prop :=
  0 < cs /\ 0 <= ov /\ 5 * ov <= 4 * cs.

(** Offsets of a 2500-character text within 200 characters before a
    window boundary of the run with chunk size 1000 and overlap 200,
    and the first offset. *)
Definition near_boundary (k : Z) : Prop :=
  k = 0 \/ 800 <= k < 1000 \/ 1600 <= k < 1800 \/ 2400 <= k < 2500.

(** The last [n] characters of [a] are the first [n] characters of [b]. *)
Definition adjacent_overlap (a b : text) (n : nat) : Prop :=
  (n <= length a)%nat /\ (n <= length b)%nat /\
  drop (length a - n) a = take n b.

Section Outcomes.
Context `{Externals}.

(** What became of the chunk at index [i]: [Some r] when the record [r]
    was stored for it, [None] when it was skipped.  A stored record
    carries the chunk, the id [{stem}_{i}] and the metadata extended
    with [chunk_id = i]; a chunk is skipped only when it is blank or
    the embedding call on it raised. *)
Definition outcome_ok (self : DocumentIngestion) (metadata : Metadata)
    (i : nat) (chunk : text) (o : option StoredRecord) : Prop :=
  match o with
  | Some r =>
      rec_document r = chunk /\
      Py.truthy (Py.strip chunk) = true /\
      (exists name, metadata !! "filename"%string = Some (MStr name) /\
         rec_id r = path_stem name ++ T "_" ++ Py.str_of_nat i) /\
      rec_metadata r = <[ "chunk_id"%string := MInt (Z.of_nat i) ]> metadata /\
      (exists w w', embeddings_create (embedding_model self) chunk w
                    = (Ok (rec_embedding r), w'))
  | None =>
      Py.truthy (Py.strip chunk) = false \/
      (exists w w' msg, embeddings_create (embedding_model self) chunk w
                        = (Raise msg, w'))
  end.

(** The records stored, in order. *)
Definition stored_of (outcomes : list (option StoredRecord)) : list StoredRecord :=
  omap id outcomes.

(** What the loop does with the chunk at index [i] when it reaches it
    in state [s] (lines 62-84).  A blank chunk is skipped and
    no service is called.  A chunk whose embedding call raises is
    skipped after that one call: the records stay as they are.  Any
    other chunk is handed to [collection.add] once, with the embedding
    that call returned, under the id [{stem}_{i}] and with
    [chunk_id = i]; when the add returns, the record joins the records
    accepted. *)
Inductive settled (self : DocumentIngestion) (metadata : Metadata) (i : nat)
    (chunk : text) (s : State) : option StoredRecord -> State -> Prop :=
  | settled_blank :
      Py.truthy (Py.strip chunk) = false ->
      settled self metadata i chunk s None s
  | settled_unembedded msg w :
      Py.truthy (Py.strip chunk) = true ->
      embeddings_create (embedding_model self) chunk (world s) = (Raise msg, w) ->
      settled self metadata i chunk s None (mkState w (stored s))
  | settled_stored e w name w' :
      Py.truthy (Py.strip chunk) = true ->
      embeddings_create (embedding_model self) chunk (world s) = (Ok e, w) ->
      metadata !! "filename"%string = Some (MStr name) ->
      collection_add_call (path_stem name ++ T "_" ++ Py.str_of_nat i) e chunk
        (<[ "chunk_id"%string := MInt (Z.of_nat i) ]> metadata) w = (Ok tt, w') ->
      settled self metadata i chunk s
        (Some (mkRecord (path_stem name ++ T "_" ++ Py.str_of_nat i) e chunk
                 (<[ "chunk_id"%string := MInt (Z.of_nat i) ]> metadata)))
        (mkState w'
           (stored s ++
            [mkRecord (path_stem name ++ T "_" ++ Py.str_of_nat i) e chunk
               (<[ "chunk_id"%string := MInt (Z.of_nat i) ]> metadata)])).

(** A run over [chunks] from index [i] and state [st]: [outcomes] holds
    what became of each chunk reached, [states] the state after each,
    so that chunk [j] is settled from the state its predecessor left. *)
Definition traced (self : DocumentIngestion) (metadata : Metadata) (i : nat)
    (chunks : list text) (st : State)
    (outcomes : list (option StoredRecord)) (states : list State) : Prop :=
  length states = length outcomes /\
  (length outcomes <= length chunks)%nat /\
  forall (j : nat) chunk o s s',
    chunks !! j = Some chunk -> outcomes !! j = Some o ->
    (st :: states) !! j = Some s -> states !! j = Some s' ->
    settled self metadata (i + j) chunk s o s'.

End Outcomes.

(** ** Further vocabulary *)

(** [c] is a run of consecutive characters of [s]. *)
Definition infix_of (c s : text) : Prop :=
  exists pre post, s = pre ++ c ++ post.

(** [c] neither starts nor ends with whitespace. *)
Definition stripped (c : text) : Prop :=
  match c with
  | [] => True
  | x :: _ => Py.isspace x = false /\
              exists d, last c = Some d /\ Py.isspace d = false
  end.

(** [s] is blank: it has no character that is not whitespace. *)
Definition blank (s : text) : Prop := Forall (fun c => Py.isspace c = true) s.

(** What one window can contribute as a chunk: a non-empty run of
    characters of the text, without whitespace at either end, of at
    most [cs] characters. *)
Definition good_chunk (txt : text) (cs : Z) (c : text) : Prop :=
  c <> [] /\ stripped c /\ infix_of c txt /\ Py.len c <= cs.

Section MoreVocabulary.
Context `{Externals}.

(** Whether [process_file] reports success for a file; a chunker out of
    fuel counts as no success. *)
Definition file_succeeds (fuel : nat) (p : DocumentProcessor) (f : text) : bool :=
  match process_file fuel p f with
  | Some r => pr_success r
  | None => false
  end.

(** The collection accepts every record. *)
Definition collection_never_raises : Prop :=
  forall id e document metadata w,
    exists w', collection_add_call id e document metadata w = (Ok tt, w').

(** The first row of a query answer, when there is one, has an entry
    for each of [n] documents. *)
Definition row_covers {A : Type} (xs : option (list (list A))) (n : nat) : Prop :=
  match xs with
  | Some (row :: _) => (n <= length row)%nat
  | _ => True
  end.

(** A first row that ends before the documents do. *)
Definition row_short {A : Type} (xs : option (list (list A))) (i n : nat) : Prop :=
  match xs with
  | Some (row :: _) => (i <= length row < i + n)%nat
  | _ => False
  end.

(** The chunks the successful files of a summary report together. *)
Definition total_added (l : list SuccessfulFile) : nat :=
  foldr (fun e acc => (sf_chunks_added e + acc)%nat) 0%nat l.

(** The result of [process_file] when the chunker raised an error of
    text [oom]. *)
Definition chunking_failure (p : DocumentProcessor) (f : text) (oom : text)
    : ProcessResult :=
  mkProcess false [] (ex_metadata (extract_text_from_file p f))
    (Some (T "Chunking error: " ++ oom)).

(** What folder ingestion makes of the files found, in their order,
    from state [s], where [run] is [process_file].  A file whose
    processing fails is filed with the error and the metadata of the
    processing, and the state is not touched.  A file that is
    processed has its chunks added in the state the files before it
    left; it is filed as successful with the count of the addition
    when that one reports success, and with its message otherwise.
    [unprocessed] holds the failures of the processing and [refused]
    those of the addition. *)
Inductive ingested (run : text -> option ProcessResult) (self : DocumentIngestion)
    : list text -> State -> list SuccessfulFile -> list FailedFile ->
      list FailedFile -> State -> Prop :=
  | ingested_nil s : ingested run self [] s [] [] [] s
  | ingested_unprocessed f rest s r successful unprocessed refused s' :
      run f = Some r ->
      pr_success r = false ->
      ingested run self rest s successful unprocessed refused s' ->
      ingested run self (f :: rest) s successful
        (mkFailed f (pr_error r) (pr_metadata r) :: unprocessed) refused s'
  | ingested_added f rest s r a s1 successful unprocessed refused s' :
      run f = Some r ->
      pr_success r = true ->
      add_document_chunks self (pr_chunks r) (pr_metadata r) s = (a, s1) ->
      add_success a = true ->
      ingested run self rest s1 successful unprocessed refused s' ->
      ingested run self (f :: rest) s
        (mkSuccessful f (chunks_added a) (pr_metadata r) :: successful)
        unprocessed refused s'
  | ingested_refused f rest s r a s1 successful unprocessed refused s' :
      run f = Some r ->
      pr_success r = true ->
      add_document_chunks self (pr_chunks r) (pr_metadata r) s = (a, s1) ->
      add_success a = false ->
      ingested run self rest s1 successful unprocessed refused s' ->
      ingested run self (f :: rest) s successful unprocessed
        (mkFailed f (Some (add_message a)) (pr_metadata r) :: refused) s'.

End MoreVocabulary.

(** ** Facts about the string primitives *)

Section PyFacts.
Implicit Types (s : text) (c : ascii).

Lemma len_nonneg s : 0 <= Py.len s.
Proof. unfold Py.len. lia. Qed.

Lemma rfind_bounds c s : -1 <= Py.rfind c s < Py.len s.
Proof.
  unfold Py.len. induction s as [|x r IH]; simpl; [lia|].
  destruct (Z.leb_spec 0 (Py.rfind c r)); [lia|].
  destruct (Ascii.eqb x c); lia.
Qed.

(** A negative result means the character does not occur. *)
Lemma rfind_absent c s (j : nat) : Py.rfind c s < 0 -> s !! j <> Some c.
Proof.
  revert j. induction s as [|x r IH]; intros j Hlt; [by destruct j|].
  simpl in Hlt.
  destruct (Z.leb_spec 0 (Py.rfind c r)); [pose proof (rfind_bounds c r); lia|].
  destruct (Ascii.eqb_spec x c); [lia|].
  destruct j as [|j]; simpl; [congruence|]. by apply IH.
Qed.

(** A non-negative result is the last occurrence. *)
Lemma rfind_found c s k :
  0 <= k -> Py.rfind c s = k ->
  s !! Z.to_nat k = Some c /\
  forall j : nat, k < Z.of_nat j -> s !! j <> Some c.
Proof.
  revert k. induction s as [|x r IH]; intros k Hk; simpl.
  { intros <-. lia. }
  destruct (Z.leb_spec 0 (Py.rfind c r)) as [Hr|Hr].
  - intros <-.
    destruct (IH _ Hr eq_refl) as [Hat Hafter].
    replace (Z.to_nat (Py.rfind c r + 1)) with (S (Z.to_nat (Py.rfind c r))) by lia.
    split; [exact Hat|].
    intros [|j] Hj; [lia|]. simpl. apply Hafter. lia.
  - destruct (Ascii.eqb_spec x c) as [->|Hne]; intros <-; [|lia].
    split; [reflexivity|].
    intros [|j] Hj; [lia|]. simpl.
    by apply rfind_absent.
Qed.

(** The result is at most [b] when [c] does not occur above [b]. *)
Lemma rfind_le c s b :
  -1 <= b ->
  (forall j : nat, b < Z.of_nat j -> s !! j <> Some c) -> Py.rfind c s <= b.
Proof.
  intros Hb1 Habove.
  destruct (Z.le_gt_cases (Py.rfind c s) b) as [|Hgt]; [done|].
  pose proof (rfind_bounds c s) as Hb.
  destruct (Z.le_gt_cases 0 (Py.rfind c s)) as [H0|H0].
  - destruct (rfind_found c s _ H0 eq_refl) as [Hat _].
    exfalso. apply (Habove (Z.to_nat (Py.rfind c s))); [lia|exact Hat].
  - lia.
Qed.

Lemma clamp_nonneg i n : 0 <= i -> Py.clamp i n = Z.min i n.
Proof. unfold Py.clamp. destruct (Z.ltb_spec i 0); lia. Qed.

(** A slice with bounds inside the text. *)
Lemma slice_inside s lo hi :
  0 <= lo <= hi -> hi <= Py.len s ->
  Py.slice s lo hi = take (Z.to_nat (hi - lo)) (drop (Z.to_nat lo) s).
Proof.
  intros Hlo Hhi. unfold Py.slice.
  rewrite !clamp_nonneg by lia. by rewrite !Z.min_l by lia.
Qed.

(** A slice whose upper bound is at or past the end. *)
Lemma slice_to_end s lo hi :
  0 <= lo <= Py.len s -> Py.len s <= hi ->
  Py.slice s lo hi = drop (Z.to_nat lo) s.
Proof.
  intros Hlo Hhi. unfold Py.slice.
  rewrite !clamp_nonneg by lia.
  rewrite (Z.min_l lo), (Z.min_r hi) by lia.
  apply take_ge. rewrite length_drop. unfold Py.len in *. lia.
Qed.

Lemma slice_length s lo hi :
  0 <= lo <= hi -> hi <= Py.len s ->
  length (Py.slice s lo hi) = Z.to_nat (hi - lo).
Proof.
  intros Hlo Hhi. rewrite slice_inside by done.
  rewrite length_take, length_drop. unfold Py.len in *. lia.
Qed.

(** A window of [cs] characters holds at most [cs] of them. *)
Lemma slice_window_length s lo cs :
  0 <= lo -> 0 <= cs -> Py.len (Py.slice s lo (lo + cs)) <= cs.
Proof.
  intros Hlo Hcs. unfold Py.slice, Py.len.
  rewrite !clamp_nonneg by lia. rewrite length_take. lia.
Qed.

Lemma slice_lookup s lo hi (k : nat) :
  0 <= lo <= hi -> hi <= Py.len s -> Z.of_nat k < hi - lo ->
  Py.slice s lo hi !! k = s !! (Z.to_nat lo + k)%nat.
Proof.
  intros Hlo Hhi Hk. rewrite slice_inside by done.
  rewrite lookup_take_lt by lia. by rewrite lookup_drop.
Qed.

Lemma lstrip_id s c :
  s !! 0%nat = Some c -> Py.isspace c = false -> Py.lstrip s = s.
Proof. destruct s as [|x r]; [done|]. simpl. intros [= ->] ->. done. Qed.

(** Stripping leaves alone a text that starts and ends with characters
    that are not whitespace. *)
Lemma strip_id s c d :
  s !! 0%nat = Some c -> Py.isspace c = false ->
  last s = Some d -> Py.isspace d = false ->
  Py.strip s = s.
Proof.
  intros Hc Hcs Hd Hds. unfold Py.strip, Py.rstrip.
  rewrite (lstrip_id s c) by done.
  rewrite (lstrip_id (reverse s) d); [apply reverse_involutive| |done].
  by rewrite <- head_lookup, head_reverse.
Qed.
End PyFacts.

(** ** Facts about one iteration of the chunking loop *)

Lemma rfind_last_index c w : last_index c w (Py.rfind c w).
Proof.
  pose proof (rfind_bounds c w) as Hb.
  destruct (Z.le_gt_cases 0 (Py.rfind c w)) as [H0|H0].
  - right. split; [done|]. by apply rfind_found.
  - left. split; [lia|]. intros j. apply rfind_absent. lia.
Qed.

Lemma last_index_unique c w i : last_index c w i -> Py.rfind c w = i.
Proof.
  pose proof (rfind_last_index c w) as Hr. pose proof (rfind_bounds c w) as Hb.
  intros [[-> Hno]|(Hi & Hat & Hafter)]; destruct Hr as [[Hr Hno']|(Hr & Hat' & Hafter')].
  - done.
  - by destruct (Hno _ Hat').
  - by destruct (Hno' _ Hat).
  - destruct (Z.lt_trichotomy (Py.rfind c w) i) as [Hlt|[Heq|Hgt]]; [|done|].
    + destruct (Hafter' (Z.to_nat i)); [lia|done].
    + destruct (Hafter (Z.to_nat (Py.rfind c w))); [lia|done].
Qed.

Lemma cut_end_tail txt cs start :
  Py.len txt <= start + cs -> cut_end txt cs start = start + cs.
Proof. intros H. unfold cut_end. by destruct (Z.ltb_spec (start + cs) (Py.len txt)); [lia|]. Qed.

(** Every iteration ends its window after more than 80% of [cs] and
    after at most [cs] characters. *)
Lemma cut_end_progress txt cs start k :
  0 <= start -> 0 < cs -> 5 * k <= 4 * cs ->
  start + k < cut_end txt cs start <= start + cs.
Proof.
  intros Hs Hcs Hk. unfold cut_end, beyond_80pct.
  pose proof (slice_window_length txt start cs Hs ltac:(lia)) as Hlen.
  pose proof (rfind_bounds "." (Py.slice txt start (start + cs))) as Hp.
  pose proof (rfind_bounds " " (Py.slice txt start (start + cs))) as Hsp.
  destruct (Z.ltb_spec (start + cs) (Py.len txt)); [|lia].
  repeat case_match; lia.
Qed.

Lemma chunk_loop_next fuel txt cs ov start chunks :
  start < Py.len txt ->
  cut_end txt cs start - ov < Py.len txt ->
  chunk_loop (S fuel) txt cs ov start chunks =
  chunk_loop fuel txt cs ov (cut_end txt cs start - ov)
    (chunks ++ option_list (window_chunk txt (start, cut_end txt cs start))).
Proof.
  intros Hs He. simpl.
  destruct (Z.ltb_spec start (Py.len txt)); [|lia].
  destruct (Z.leb_spec (Py.len txt) (cut_end txt cs start - ov)); [lia|].
  unfold window_chunk; simpl.
  destruct (Py.truthy _); simpl; by rewrite ?app_nil_r.
Qed.

Lemma chunk_loop_last fuel txt cs ov start chunks :
  start < Py.len txt ->
  Py.len txt <= cut_end txt cs start - ov ->
  chunk_loop (S fuel) txt cs ov start chunks =
  Some (chunks ++ option_list (window_chunk txt (start, cut_end txt cs start))).
Proof.
  intros Hs He. simpl.
  destruct (Z.ltb_spec start (Py.len txt)); [|lia].
  destruct (Z.leb_spec (Py.len txt) (cut_end txt cs start - ov)); [|lia].
  unfold window_chunk; simpl.
  destruct (Py.truthy _); simpl; by rewrite ?app_nil_r.
Qed.

(** The chunks returned are those of the windows, in order. *)
Lemma chunk_loop_windows fuel txt cs ov start chunks ws :
  chunk_windows fuel txt cs ov start = Some ws ->
  chunk_loop fuel txt cs ov start chunks =
  Some (chunks ++ omap (window_chunk txt) ws).
Proof.
  revert start chunks ws. induction fuel as [|fuel IH]; intros start chunks ws; simpl.
  - destruct (start <? Py.len txt); [done|]. intros [= <-]. by rewrite app_nil_r.
  - destruct (start <? Py.len txt); [|intros [= <-]; by rewrite app_nil_r].
    destruct (Py.len txt <=? cut_end txt cs start - ov).
    + intros [= <-]. simpl. unfold window_chunk; simpl.
      destruct (Py.truthy _); simpl; by rewrite ?app_nil_r.
    + destruct (chunk_windows fuel txt cs ov _) as [ws'|] eqn:Hws; [|done].
      intros [= <-]. rewrite (IH _ _ ws' Hws). simpl.
      unfold window_chunk at 2; simpl.
      destruct (Py.truthy _); simpl; by rewrite <- ?app_assoc.
Qed.

(** ** The sequence of windows *)

Lemma chunk_windows_total fuel txt cs ov start :
  progressing cs ov -> 0 <= start < Py.len txt ->
  Py.len txt - start <= Z.of_nat fuel ->
  exists ws, chunk_windows fuel txt cs ov start = Some ws /\
             chained txt cs ov start ws.
Proof.
  intros (Hcs & Hov & H80). revert start.
  induction fuel as [|fuel IH]; intros start Hs Hfuel; [lia|].
  pose proof (cut_end_progress txt cs start ov ltac:(lia) Hcs H80) as He.
  simpl. destruct (Z.ltb_spec start (Py.len txt)); [|lia].
  destruct (Z.leb_spec (Py.len txt) (cut_end txt cs start - ov)) as [Hl|Hl].
  - eexists. split; [done|]. simpl. done.
  - destruct (IH (cut_end txt cs start - ov)) as (ws & Hws & Hch); [lia|lia|].
    rewrite Hws. eexists. split; [done|].
    simpl. destruct ws as [|w ws]; [done|]. done.
Qed.

Lemma chained_head txt cs ov start w ws :
  chained txt cs ov start (w :: ws) -> w = (start, cut_end txt cs start).
Proof. destruct w. simpl. by intros (-> & -> & _). Qed.

(** Successive windows start strictly later, and never after the end of
    the window before. *)
Lemma chained_increasing txt cs ov start ws (i : nat) w w' :
  progressing cs ov -> 0 <= start -> chained txt cs ov start ws ->
  ws !! i = Some w -> ws !! S i = Some w' ->
  w.1 < w'.1 /\ w'.1 = w.2 - ov /\ w'.1 <= w.2.
Proof.
  intros (Hcs & Hov & H80). revert start i.
  induction ws as [|a ws IH]; intros start i Hs Hch Hw Hw'; [done|].
  pose proof (cut_end_progress txt cs start ov Hs Hcs H80) as He.
  destruct ws as [|b ws]; [done|].
  destruct Hch as (Ha1 & Ha2 & Hlt & Hch).
  destruct i as [|i].
  - simpl in Hw, Hw'. injection Hw as <-. injection Hw' as <-.
    apply chained_head in Hch. subst b. simpl. lia.
  - simpl in Hw, Hw'. eapply (IH (a.2 - ov) i); [lia|done|done|done].
Qed.

(** The windows leave no offset of the text out. *)
Lemma chained_cover txt cs ov start ws k :
  0 <= ov -> chained txt cs ov start ws ->
  start <= k < Py.len txt ->
  exists w, w ∈ ws /\ w.1 <= k < w.2.
Proof.
  intros Hov. revert start.
  induction ws as [|a ws IH]; intros start Hch Hk; [done|].
  destruct Hch as (Ha1 & Ha2 & Hrest).
  destruct (Z.lt_ge_cases k a.2) as [Hin|Hout].
  - exists a. split; [left|lia].
  - destruct ws as [|b ws]; [lia|].
    destruct Hrest as [Hlt Hch].
    destruct (IH _ Hch) as (w & Hw & Hkw); [lia|].
    exists w. split; [by right|done].
Qed.

(** A window that hands its own start on to the next iteration is cut
    again for ever. *)
Lemma chunk_loop_stuck fuel txt cs ov start chunks :
  start < Py.len txt -> cut_end txt cs start - ov = start ->
  chunk_loop fuel txt cs ov start chunks = None.
Proof.
  intros Hs Hfix. revert chunks.
  induction fuel as [|fuel IH]; intros chunks.
  - simpl. by destruct (Z.ltb_spec start (Py.len txt)); [|lia].
  - rewrite chunk_loop_next by lia. rewrite Hfix. apply IH.
Qed.

(** ** Windows without a break point *)

(** A window that is followed by more text, and has neither a full stop
    nor a space beyond 80% of the chunk size, is cut at the chunk size. *)
Lemma cut_end_no_break txt cs start :
  0 <= start -> 0 <= cs -> start + cs < Py.len txt ->
  (forall k c, 4 * cs < 5 * k -> k < cs ->
     txt !! Z.to_nat (start + k) = Some c -> c <> "."%char /\ c <> " "%char) ->
  cut_end txt cs start = start + cs.
Proof.
  intros Hs Hcs Hend Hclean. unfold cut_end, beyond_80pct.
  destruct (Z.ltb_spec (start + cs) (Py.len txt)); [|lia].
  assert (Hle : forall c, (c = "." \/ c = " ")%char ->
            Py.rfind c (Py.slice txt start (start + cs)) <= 4 * cs / 5).
  { intros c Hc. apply rfind_le; [Z.div_mod_to_equations; lia|].
    intros j Hj Hat.
    assert (Z.of_nat j < cs) as Hjcs.
    { apply lookup_lt_Some in Hat.
      rewrite slice_length in Hat by lia. lia. }
    rewrite slice_lookup in Hat by lia.
    replace (Z.to_nat start + j)%nat with (Z.to_nat (start + Z.of_nat j)) in Hat by lia.
    destruct (Hclean (Z.of_nat j) c) as [H1 H2]; [Z.div_mod_to_equations; lia|done|done|].
    by destruct Hc. }
  pose proof (Hle "."%char ltac:(by left)).
  pose proof (Hle " "%char ltac:(by right)).
  destruct (Z.ltb_spec (4 * cs) (5 * Py.rfind "." (Py.slice txt start (start + cs))));
    [Z.div_mod_to_equations; lia|].
  destruct (Z.ltb_spec (4 * cs) (5 * Py.rfind " " (Py.slice txt start (start + cs))));
    [Z.div_mod_to_equations; lia|].
  done.
Qed.

(** The slice of a window stops at the end of the text. *)
Lemma slice_clip s lo hi :
  0 <= lo -> 0 <= hi -> Py.slice s lo hi = Py.slice s lo (Z.min hi (Py.len s)).
Proof.
  intros Hlo Hhi. pose proof (len_nonneg s). unfold Py.slice.
  rewrite !clamp_nonneg by lia. by rewrite <- Z.min_assoc, Z.min_id.
Qed.

(** A window whose first and last characters are not whitespace
    contributes its whole text. *)
Lemma window_chunk_clean txt lo hi c d :
  0 <= lo < hi -> hi <= Py.len txt ->
  txt !! Z.to_nat lo = Some c -> Py.isspace c = false ->
  txt !! Z.to_nat (hi - 1) = Some d -> Py.isspace d = false ->
  Py.strip (Py.slice txt lo hi) = Py.slice txt lo hi /\
  Py.truthy (Py.slice txt lo hi) = true.
Proof.
  intros Hlo Hhi Hc Hcs Hd Hds.
  assert (Hfirst : Py.slice txt lo hi !! 0%nat = Some c).
  { rewrite slice_lookup by lia. by rewrite Nat.add_0_r. }
  split.
  - apply (strip_id _ c d); [done|done| |done].
    rewrite last_lookup, slice_length by lia.
    rewrite slice_lookup by lia. rewrite <- Hd. f_equal. lia.
  - by destruct (Py.slice txt lo hi).
Qed.

Lemma drop_slice s lo hi (k : nat) :
  0 <= lo -> lo + Z.of_nat k <= hi -> hi <= Py.len s ->
  drop k (Py.slice s lo hi) = Py.slice s (lo + Z.of_nat k) hi.
Proof.
  intros Hlo Hk Hhi. rewrite !slice_inside by lia.
  rewrite take_drop_commute, drop_drop, take_drop_commute.
  f_equal; [lia|]. f_equal. lia.
Qed.

Lemma take_slice s lo hi (k : nat) :
  0 <= lo -> lo + Z.of_nat k <= hi -> hi <= Py.len s ->
  take k (Py.slice s lo hi) = Py.slice s lo (lo + Z.of_nat k).
Proof.
  intros Hlo Hk Hhi. rewrite !slice_inside by lia.
  rewrite take_take. f_equal. lia.
Qed.

(** ** Whole windows, termination and fuel *)

Lemma isspace_space c : Py.isspace c = false -> c <> " "%char.
Proof. by intros H ->. Qed.

Lemma window_chunk_inside txt lo hi hi' :
  0 <= lo < hi -> 0 <= hi' -> hi = Z.min hi' (Py.len txt) ->
  (forall k c, k = lo \/ k = hi - 1 ->
     txt !! Z.to_nat k = Some c -> Py.isspace c = false) ->
  window_chunk txt (lo, hi') = Some (Py.slice txt lo hi).
Proof.
  intros Hlo Hhi' Hhi Hclean. unfold window_chunk. simpl.
  rewrite (slice_clip txt lo hi'), <- Hhi by lia.
  destruct (lookup_lt_is_Some_2 txt (Z.to_nat lo)) as [c Hc];
    [unfold Py.len in *; lia|].
  destruct (lookup_lt_is_Some_2 txt (Z.to_nat (hi - 1))) as [d Hd];
    [unfold Py.len in *; lia|].
  destruct (window_chunk_clean txt lo hi c d) as [-> ->]; try done; [lia|..].
  - apply (Hclean lo); [by left|done].
  - apply (Hclean (hi - 1)); [by right|done].
Qed.

(** On a text longer than the chunk size, a progressing run returns the
    chunks of a chain of windows that starts at offset 0. *)
Lemma chunk_text_returns fuel p txt cs_arg ov_arg :
  let cs := effective_chunk_size p cs_arg in
  let ov := effective_overlap p ov_arg in
  progressing cs ov -> cs < Py.len txt -> Py.len txt <= Z.of_nat fuel ->
  exists ws,
    chunk_windows fuel txt cs ov 0 = Some ws /\
    chained txt cs ov 0 ws /\
    chunk_text fuel p txt cs_arg ov_arg = Some (omap (window_chunk txt) ws).
Proof.
  intros cs ov Hprog Hlong Hfuel.
  destruct (chunk_windows_total fuel txt cs ov 0 Hprog) as (ws & Hws & Hch);
    [destruct Hprog; lia|lia|].
  exists ws. split; [done|]. split; [done|].
  unfold chunk_text. fold cs ov.
  destruct (Z.leb_spec (Py.len txt) cs); [lia|].
  by rewrite (chunk_loop_windows _ _ _ _ _ _ ws Hws).
Qed.

(** The early return: the loop is not entered for a short text. *)
Lemma chunk_text_early_return fuel p txt cs_arg ov_arg :
  Py.len txt <= effective_chunk_size p cs_arg ->
  chunk_text fuel p txt cs_arg ov_arg = Some [txt].
Proof.
  intros Hshort. unfold chunk_text.
  by destruct (Z.leb_spec (Py.len txt) (effective_chunk_size p cs_arg)); [|lia].
Qed.

(** More fuel does not change a result. *)
Lemma chunk_loop_more_fuel fuel fuel' txt cs ov start chunks r :
  (fuel <= fuel')%nat ->
  chunk_loop fuel txt cs ov start chunks = Some r ->
  chunk_loop fuel' txt cs ov start chunks = Some r.
Proof.
  revert fuel' start chunks.
  induction fuel as [|fuel IH]; intros fuel' start chunks Hle; simpl.
  - destruct fuel'; simpl; by destruct (start <? Py.len txt).
  - destruct fuel' as [|fuel']; [lia|]. simpl.
    destruct (start <? Py.len txt); [|done].
    destruct (Py.len txt <=? cut_end txt cs start - ov); [done|].
    apply IH. lia.
Qed.

Lemma chunk_text_more_fuel fuel fuel' p txt cs_arg ov_arg r :
  (fuel <= fuel')%nat ->
  chunk_text fuel p txt cs_arg ov_arg = Some r ->
  chunk_text fuel' p txt cs_arg ov_arg = Some r.
Proof.
  intros Hle. unfold chunk_text.
  destruct (Py.len txt <=? effective_chunk_size p cs_arg); [done|].
  by apply chunk_loop_more_fuel.
Qed.

(** ** Facts about the chunk loop in bounded memory *)

(** The loop only appends. *)
Lemma chunk_loop_extends fuel txt cs ov start chunks out :
  chunk_loop fuel txt cs ov start chunks = Some out ->
  (length chunks <= length out)%nat.
Proof.
  revert start chunks. induction fuel as [|fuel IH]; intros start chunks; simpl.
  { destruct (start <? Py.len txt); [done|]. by intros [= <-]. }
  destruct (start <? Py.len txt); [|by intros [= <-]].
  set (c := Py.strip _).
  assert (Hle : (length chunks <= length (if Py.truthy c then chunks ++ [c] else chunks))%nat).
  { destruct (Py.truthy c); [rewrite length_app; simpl|]; lia. }
  destruct (Py.len txt <=? _).
  - intros [= <-]. done.
  - intros Hrun. apply IH in Hrun. lia.
Qed.

(** A run whose chunks fit is the run in unbounded memory. *)
Lemma chunk_loop_within_agrees heap oom fuel txt cs ov start chunks out :
  chunk_loop fuel txt cs ov start chunks = Some out ->
  (length out <= heap)%nat ->
  chunk_loop_within heap oom fuel txt cs ov start chunks = Some (Ok out).
Proof.
  revert start chunks. induction fuel as [|fuel IH]; intros start chunks; simpl.
  { destruct (start <? Py.len txt); [done|]. by intros [= <-]. }
  destruct (start <? Py.len txt); [|by intros [= <-]].
  set (c := Py.strip _).
  intros Hrun Hheap.
  assert (Hroom : Py.truthy c = true -> (length chunks < heap)%nat).
  { intros Ht. rewrite Ht in Hrun.
    assert (length (chunks ++ [c]) <= length out)%nat as Hlen.
    { destruct (Py.len txt <=? _).
      - by injection Hrun as <-.
      - by apply chunk_loop_extends in Hrun. }
    rewrite length_app in Hlen. simpl in Hlen. lia. }
  destruct (Py.truthy c) eqn:Ht; simpl.
  - specialize (Hroom eq_refl).
    destruct (Nat.leb_spec heap (length chunks)); [lia|].
    destruct (Py.len txt <=? _); [by injection Hrun as <-|by apply IH].
  - destruct (Py.len txt <=? _); [by injection Hrun as <-|by apply IH].
Qed.

(** A window that is blank and hands its own start on is cut again for
    ever, whatever the room: nothing is appended and nothing raised. *)
Lemma chunk_loop_within_spins heap oom fuel txt cs ov start chunks :
  start < Py.len txt -> cut_end txt cs start - ov = start ->
  Py.truthy (Py.strip (Py.slice txt start (cut_end txt cs start))) = false ->
  chunk_loop_within heap oom fuel txt cs ov start chunks = None.
Proof.
  intros Hs Hfix Hblank. induction fuel as [|fuel IH]; simpl.
  - by destruct (Z.ltb_spec start (Py.len txt)); [|lia].
  - destruct (Z.ltb_spec start (Py.len txt)); [|lia].
    rewrite Hblank, Hfix. simpl.
    by destruct (Z.leb_spec (Py.len txt) start); [lia|].
Qed.

(** A window that is not blank and hands its own start on is appended
    once per iteration, until the list is full: the loop raises in the
    iteration after that. *)
Lemma chunk_loop_within_exhausts heap oom fuel txt cs ov start chunks :
  start < Py.len txt -> cut_end txt cs start - ov = start ->
  Py.truthy (Py.strip (Py.slice txt start (cut_end txt cs start))) = true ->
  chunk_loop_within heap oom fuel txt cs ov start chunks
  = if (heap - length chunks <? fuel)%nat then Some (Raise oom) else None.
Proof.
  intros Hs Hfix Ht. revert chunks.
  induction fuel as [|fuel IH]; intros chunks; simpl.
  { by destruct (Z.ltb_spec start (Py.len txt)); [|lia]. }
  destruct (Z.ltb_spec start (Py.len txt)); [|lia].
  rewrite Ht, Hfix. simpl.
  destruct (Nat.leb_spec heap (length chunks)) as [Hfull|Hroom].
  { by destruct (Nat.ltb_spec (heap - length chunks) (S fuel)); [|lia]. }
  destruct (Z.leb_spec (Py.len txt) start); [lia|].
  rewrite IH, length_app. simpl.
  destruct (Nat.ltb_spec (heap - (length chunks + 1)) fuel),
           (Nat.ltb_spec (heap - length chunks) (S fuel)); done || lia.
Qed.

(** A run whose chunks do not fit raises. *)
Lemma chunk_loop_within_overflows heap oom fuel txt cs ov start chunks out :
  chunk_loop fuel txt cs ov start chunks = Some out ->
  (heap < length out)%nat -> (length chunks <= heap)%nat ->
  chunk_loop_within heap oom fuel txt cs ov start chunks = Some (Raise oom).
Proof.
  revert start chunks. induction fuel as [|fuel IH]; intros start chunks; simpl.
  { destruct (start <? Py.len txt); [done|]. intros [= <-]. lia. }
  destruct (start <? Py.len txt); [|intros [= <-]; lia].
  set (c := Py.strip _).
  intros Hrun Hover Hroom.
  destruct (Py.truthy c) eqn:Ht; simpl.
  - destruct (Nat.leb_spec heap (length chunks)) as [Hfull|Hfree]; [done|].
    destruct (Py.len txt <=? _).
    + injection Hrun as <-. rewrite length_app in Hover. simpl in Hover. lia.
    + apply IH; [done..|]. rewrite length_app. simpl. lia.
  - destruct (Py.len txt <=? _).
    + injection Hrun as <-. lia.
    + by apply IH.
Qed.

(** ** Properties of [chunk_text] *)

(** C6. A text no longer than the chunk size in effect comes back as
    the only chunk, unchanged: nothing is stripped from it, and the
    loop is not entered, so no fuel is needed. *)
Theorem chunk_text_short_text fuel p txt cs_arg ov_arg :
  Py.len txt <= effective_chunk_size p cs_arg ->
  chunk_text fuel p txt cs_arg ov_arg = Some [txt].
Proof.
  intros Hshort. unfold chunk_text.
  destruct (Z.leb_spec (Py.len txt) (effective_chunk_size p cs_arg)) as [_|Hlong].
  - reflexivity.
  - lia.
Qed.

Lemma chunk_text_short_text_witness :
  Py.len (T "  two words  ") <= effective_chunk_size default_processor (Some 20) /\
  chunk_text 0 default_processor (T "  two words  ") (Some 20) None
  = Some [T "  two words  "].
Proof.
  split; [vm_compute; discriminate|].
  apply chunk_text_short_text. vm_compute; discriminate.
Defined.

(** C10. An explicit [chunk_size] of 0 and an explicit [overlap] of 0
    are indistinguishable from leaving the argument out: both are
    replaced by the value the processor was configured with. *)
Theorem chunk_text_zero_is_default fuel p txt cs_arg ov_arg :
  chunk_text fuel p txt (Some 0) ov_arg = chunk_text fuel p txt None ov_arg /\
  chunk_text fuel p txt cs_arg (Some 0) = chunk_text fuel p txt cs_arg None /\
  effective_chunk_size p (Some 0) = chunk_size p /\
  effective_overlap p (Some 0) = chunk_overlap p.
Proof.
  unfold chunk_text, effective_chunk_size, effective_overlap, Py.or_default.
  change (0 =? 0) with true. cbv iota. by repeat split.
Qed.

(** The run of windows of a text of eleven characters under chunk size
    10 and overlap 10 never leaves offset 0. *)
Lemma chunk_text_equal_overlap_diverges fuel :
  chunk_text fuel (DocumentProcessor_init 10 10 50 None) (T "aaaaaaaaaaa") None None
  = None.
Proof.
  unfold chunk_text.
  change (Py.len _ <=? _) with false. cbv iota.
  by apply chunk_loop_stuck.
Qed.

(** The same under overlap 9, which is below the chunk size: a space at
    offset 9 cuts the window to nine characters. *)
Lemma chunk_text_overlap_above_80pct_diverges fuel :
  chunk_text fuel default_processor (T "aaaaaaaaa aaaaaaaaaa") (Some 10) (Some 9)
  = None.
Proof.
  unfold chunk_text.
  change (Py.len _ <=? _) with false. cbv iota.
  by apply chunk_loop_stuck.
Qed.

(** C5.  The code at the failing input.  Nothing checks the overlap
    against the chunk size: the constructor builds a processor whose
    overlap equals its chunk size, [chunk_text] raises nothing for it
    and hands a short text back as a chunk list, and on a text of
    eleven characters no amount of fuel makes it return. *)
Lemma chunk_text_accepts_overlap_ge_size :
  let p := DocumentProcessor_init 10 10 50 None in
  chunk_size p <= chunk_overlap p /\
  chunk_text 0 p (T "hello") None None = Some [T "hello"] /\
  forall fuel, chunk_text fuel p (T "aaaaaaaaaaa") None None = None.
Proof.
  split; [done|]. split; [done|]. apply chunk_text_equal_overlap_diverges.
Qed.

(** C2, as stated, fails.  With chunk size 10 and overlap 2 the first
    text below is longer than a chunk and starts with a space, and no
    returned chunk holds a space, so offset 0 lies in no chunk.  With
    chunk size 10 and overlap 9 the second text is longer than a chunk,
    and no chunk sequence is returned for it at all. *)
Lemma chunk_text_leaves_whitespace_uncovered :
  (let txt := T " aaaaaaaaaaaa" in
   10 < Py.len txt /\ 2 < 10 /\
   txt !! 0%nat = Some " "%char /\
   exists chunks,
     chunk_text 2 default_processor txt (Some 10) (Some 2) = Some chunks /\
     Forall (fun c => " "%char ∉ c) chunks) /\
  (let txt := T "aaaaaaaaa aaaaaaaaaa" in
   10 < Py.len txt /\ 9 < 10 /\
   forall fuel, chunk_text fuel default_processor txt (Some 10) (Some 9) = None).
Proof.
  split.
  - split; [done|]. split; [done|]. split; [done|].
    exists [T "aaaaaaaaa"; T "aaaaa"]. split; [by vm_compute|].
    repeat constructor; apply (bool_decide_unpack _); by vm_compute.
  - split; [done|]. split; [done|].
    apply chunk_text_overlap_above_80pct_diverges.
Qed.

(** C2, amended. When the chunk size in effect is positive and the
    overlap in effect is between 0 and 80% of it, [chunk_text] returns
    on every longer text (fuel [len(text)] is enough); the windows it
    cuts start at strictly increasing offsets, each next one [overlap]
    before the end of the one before, and every offset of the text lies
    in a window; the chunks returned are the stripped, non-empty texts
    of these windows in order. *)
Theorem chunk_text_windows_cover fuel p txt cs_arg ov_arg :
  let cs := effective_chunk_size p cs_arg in
  let ov := effective_overlap p ov_arg in
  0 < cs -> 0 <= ov -> 5 * ov <= 4 * cs ->
  cs < Py.len txt -> Py.len txt <= Z.of_nat fuel ->
  exists ws,
    chunk_windows fuel txt cs ov 0 = Some ws /\
    chunk_text fuel p txt cs_arg ov_arg = Some (omap (window_chunk txt) ws) /\
    (forall (i : nat) w w', ws !! i = Some w -> ws !! S i = Some w' ->
       w.1 < w'.1 /\ w'.1 = w.2 - ov /\ w'.1 <= w.2) /\
    (forall k, 0 <= k < Py.len txt -> exists w, w ∈ ws /\ w.1 <= k < w.2).
Proof.
  intros cs ov Hcs Hov H80 Hlong Hfuel.
  assert (Hprog : progressing cs ov) by done.
  destruct (chunk_text_returns fuel p txt cs_arg ov_arg Hprog Hlong Hfuel)
    as (ws & Hws & Hch & Hret).
  exists ws. split; [done|]. split; [done|]. split.
  - intros i w w'. by apply (chained_increasing txt cs ov 0 ws).
  - intros k Hk. by apply (chained_cover txt cs ov 0 ws).
Qed.

Lemma chunk_text_windows_cover_witness :
  exists ws,
    chunk_windows 24 (T "The cat sat. On the mat.") 10 2 0 = Some ws /\
    chunk_text 24 default_processor (T "The cat sat. On the mat.") (Some 10) (Some 2)
    = Some (omap (window_chunk (T "The cat sat. On the mat.")) ws) /\
    (forall (i : nat) w w', ws !! i = Some w -> ws !! S i = Some w' ->
       w.1 < w'.1 /\ w'.1 = w.2 - 2 /\ w'.1 <= w.2) /\
    (forall k, 0 <= k < 24 -> exists w, w ∈ ws /\ w.1 <= k < w.2).
Proof.
  apply (chunk_text_windows_cover 24 default_processor
           (T "The cat sat. On the mat.") (Some 10) (Some 2));
    vm_compute; first [reflexivity | discriminate].
Defined.

(** C4, as stated, fails twice.  A full stop at offset 8 of a
    10-character window is at 80% of the chunk size, and the window is
    cut at 10, not after the stop; a line feed at offset 9 is
    whitespace beyond 80%, and the window is cut at 10, not at 9. *)
Lemma cut_end_ignores_exact_80pct_and_newline :
  (let txt := T "aaaaaaaa.aaaaaaaaaaa" in
   0 + 10 < Py.len txt /\
   last_index "."%char (Py.slice txt 0 10) 8 /\ 4 * 10 <= 5 * 8 /\
   cut_end txt 10 0 = 10 /\ cut_end txt 10 0 <> 0 + 8 + 1) /\
  (let txt := "a" :: "a" :: "a" :: "a" :: "a" :: "a" :: "a" :: "a" :: "a"
              :: "010" :: T "aaaaaaaaaa" in
   0 + 10 < Py.len txt /\
   last_index "."%char (Py.slice txt 0 10) (-1) /\
   last_index "010"%char (Py.slice txt 0 10) 9 /\
   Py.isspace "010" = true /\ 4 * 10 <= 5 * 9 /\
   cut_end txt 10 0 = 10 /\ cut_end txt 10 0 <> 0 + 9)%char.
Proof.
  split; cbv zeta.
  - split; [done|]. split; [apply (rfind_last_index "." (T "aaaaaaaa.a"))|].
    split; [lia|]. by vm_compute.
  - split; [done|].
    split; [apply (rfind_last_index "." ("a" :: "a" :: "a" :: "a" :: "a" :: "a" :: "a" :: "a" :: "a" :: ["010"])%char)|].
    split; [apply (rfind_last_index "010" ("a" :: "a" :: "a" :: "a" :: "a" :: "a" :: "a" :: "a" :: "a" :: ["010"])%char)|].
    split; [done|]. split; [lia|]. by vm_compute.
Qed.

(** C4, amended. For a window that ends strictly before the end of the
    text: if the last full stop of the window is at an offset strictly
    greater than 80% of the chunk size, the window is cut just after
    it; otherwise, if the last space character (U+0020, no other
    whitespace) of the window is at an offset strictly greater than 80%
    of the chunk size, the window is cut just before it; otherwise the
    window is cut at the chunk size. *)
Theorem cut_end_rule txt cs start last_period last_space :
  start + cs < Py.len txt ->
  last_index "."%char (Py.slice txt start (start + cs)) last_period ->
  last_index " "%char (Py.slice txt start (start + cs)) last_space ->
  (4 * cs < 5 * last_period -> cut_end txt cs start = start + last_period + 1) /\
  (5 * last_period <= 4 * cs -> 4 * cs < 5 * last_space ->
   cut_end txt cs start = start + last_space) /\
  (5 * last_period <= 4 * cs -> 5 * last_space <= 4 * cs ->
   cut_end txt cs start = start + cs).
Proof.
  intros Hend Hp Hs.
  apply last_index_unique in Hp, Hs.
  unfold cut_end, beyond_80pct. rewrite Hp, Hs.
  destruct (Z.ltb_spec (start + cs) (Py.len txt)); [|lia].
  destruct (Z.ltb_spec (4 * cs) (5 * last_period));
    destruct (Z.ltb_spec (4 * cs) (5 * last_space)); repeat split; intros; lia.
Qed.

Lemma cut_end_rule_witness :
  let txt := T "aaaaaaaaa. bbbbbbbbbbb" in
  0 + 10 < Py.len txt /\
  (4 * 10 < 5 * 9 -> cut_end txt 10 0 = 0 + 9 + 1) /\
  (5 * 9 <= 4 * 10 -> 4 * 10 < 5 * (-1) -> cut_end txt 10 0 = 0 + -1) /\
  (5 * 9 <= 4 * 10 -> 5 * (-1) <= 4 * 10 -> cut_end txt 10 0 = 0 + 10).
Proof.
  split; [done|].
  apply (cut_end_rule (T "aaaaaaaaa. bbbbbbbbbbb") 10 0 9 (-1)).
  - done.
  - apply (rfind_last_index "." (T "aaaaaaaaa.")).
  - apply (rfind_last_index " " (T "aaaaaaaaa.")).
Defined.

(** C3, as stated, fails on the last pair: for 2500 letters the four
    chunks have 1000, 1000, 900 and 100 characters, and a chunk of 100
    characters shares no 200 characters with the one before it. *)
Lemma chunk_text_2500_last_overlap_is_100 :
  let txt := replicate 2500 "a"%char in
  exists c1 c2 c3 c4,
    chunk_text 4 default_processor txt (Some 1000) (Some 200)
    = Some [c1; c2; c3; c4] /\
    length c3 = 900%nat /\ length c4 = 100%nat /\
    ~ adjacent_overlap c3 c4 200.
Proof.
  exists (replicate 1000 "a"%char), (replicate 1000 "a"%char),
         (replicate 900 "a"%char), (replicate 100 "a"%char).
  split; [by vm_compute|].
  rewrite !length_replicate. split; [done|]. split; [done|].
  intros (_ & Hle & _). rewrite length_replicate in Hle. lia.
Qed.

(** C3, amended. With chunk size 1000 and overlap 200, a text of 2500
    characters that has no full stop and no whitespace at its first
    offset and within 200 characters before a window boundary yields
    exactly four chunks: the characters at offsets 0..999, 800..1799,
    1600..2499 and 2400..2499, of 1000, 1000, 900 and 100 characters.
    The first and second and the second and third share 200 characters;
    the fourth is the last 100 characters of the third. *)
Theorem chunk_text_2500 fuel p txt :
  Py.len txt = 2500 ->
  (forall k c, near_boundary k -> txt !! Z.to_nat k = Some c ->
     c <> "."%char /\ Py.isspace c = false) ->
  (4 <= fuel)%nat ->
  exists c1 c2 c3 c4,
    chunk_text fuel p txt (Some 1000) (Some 200) = Some [c1; c2; c3; c4] /\
    c1 = Py.slice txt 0 1000 /\ c2 = Py.slice txt 800 1800 /\
    c3 = Py.slice txt 1600 2500 /\ c4 = Py.slice txt 2400 2500 /\
    length c1 = 1000%nat /\ length c2 = 1000%nat /\
    length c3 = 900%nat /\ length c4 = 100%nat /\
    adjacent_overlap c1 c2 200 /\ adjacent_overlap c2 c3 200 /\
    adjacent_overlap c3 c4 100.
Proof.
  intros Hlen Hclean Hfuel.
  assert (Hcut : forall start, start = 0 \/ start = 800 ->
            cut_end txt 1000 start = start + 1000).
  { intros start Hstart. apply cut_end_no_break; [lia|lia|lia|].
    intros k c Hk Hk' Hat.
    destruct (Hclean (start + k) c) as [Hdot Hsp]; [unfold near_boundary; lia|done|].
    split; [done|by apply isspace_space]. }
  assert (Hchunk : forall lo hi hi', 0 <= lo < hi -> hi = Z.min hi' 2500 ->
            near_boundary lo -> near_boundary (hi - 1) ->
            window_chunk txt (lo, hi') = Some (Py.slice txt lo hi)).
  { intros lo hi hi' Hlo Hhi Hnlo Hnhi.
    apply window_chunk_inside; [done|lia|by rewrite Hlen|].
    intros k c [->| ->] Hat; [exact (proj2 (Hclean _ c Hnlo Hat))|exact (proj2 (Hclean _ c Hnhi Hat))]. }
  do 4 (destruct fuel as [|fuel]; [lia|]).
  eexists _, _, _, _. split.
  { unfold chunk_text.
    change (effective_chunk_size p (Some 1000)) with 1000.
    change (effective_overlap p (Some 200)) with 200.
    rewrite Hlen. change (2500 <=? 1000) with false. cbv iota.
    rewrite chunk_loop_next by (rewrite ?(Hcut 0) by lia; lia).
    rewrite (Hcut 0) by lia.
    rewrite (Hchunk 0 1000) by (unfold near_boundary; lia).
    change (0 + 1000 - 200) with 800.
    rewrite chunk_loop_next by (rewrite ?(Hcut 800) by lia; lia).
    rewrite (Hcut 800) by lia.
    rewrite (Hchunk 800 1800) by (unfold near_boundary; lia).
    change (800 + 1000 - 200) with 1600.
    rewrite chunk_loop_next by (rewrite ?(cut_end_tail txt 1000 1600) by lia; lia).
    rewrite (cut_end_tail txt 1000 1600) by lia.
    rewrite (Hchunk 1600 2500) by (unfold near_boundary; lia).
    change (1600 + 1000 - 200) with 2400.
    rewrite chunk_loop_last by (rewrite ?(cut_end_tail txt 1000 2400) by lia; lia).
    rewrite (cut_end_tail txt 1000 2400) by lia.
    rewrite (Hchunk 2400 2500) by (unfold near_boundary; lia).
    reflexivity. }
  split; [done|]. split; [done|]. split; [done|]. split; [done|].
  rewrite !slice_length by lia.
  split; [done|]. split; [done|]. split; [done|]. split; [done|].
  unfold adjacent_overlap. rewrite !slice_length by lia.
  repeat split; try (simpl; lia).
  - change (Z.to_nat (1000 - 0) - 200)%nat with 800%nat.
    rewrite drop_slice, take_slice by lia. done.
  - change (Z.to_nat (1800 - 800) - 200)%nat with 800%nat.
    rewrite drop_slice, take_slice by lia. done.
  - change (Z.to_nat (2500 - 1600) - 100)%nat with 800%nat.
    rewrite drop_slice, take_slice by lia. done.
Qed.

Lemma chunk_text_2500_witness :
  exists c1 c2 c3 c4,
    chunk_text 4 default_processor (replicate 2500 "a"%char) (Some 1000) (Some 200)
    = Some [c1; c2; c3; c4] /\
    c1 = Py.slice (replicate 2500 "a"%char) 0 1000 /\
    c2 = Py.slice (replicate 2500 "a"%char) 800 1800 /\
    c3 = Py.slice (replicate 2500 "a"%char) 1600 2500 /\
    c4 = Py.slice (replicate 2500 "a"%char) 2400 2500 /\
    length c1 = 1000%nat /\ length c2 = 1000%nat /\
    length c3 = 900%nat /\ length c4 = 100%nat /\
    adjacent_overlap c1 c2 200 /\ adjacent_overlap c2 c3 200 /\
    adjacent_overlap c3 c4 100.
Proof.
  apply (chunk_text_2500 4 default_processor (replicate 2500 "a"%char)).
  - by vm_compute.
  - intros k c _ Hat. apply lookup_replicate_1 in Hat as [-> _]. done.
  - lia.
Defined.

(** ** Facts about [add_document_chunks] *)

Section IngestionFacts.
Context `{Externals}.

Lemma doc_id_Ok metadata i id :
  doc_id metadata i = Ok id ->
  exists name, metadata !! "filename"%string = Some (MStr name) /\
    id = path_stem name ++ T "_" ++ Py.str_of_nat i.
Proof.
  unfold doc_id. destruct (metadata !! "filename"%string) as [[name| |]|]; try done.
  intros [= <-]. by exists name.
Qed.

(** The loop from index [i]: one outcome per chunk it got to. *)
Lemma add_chunks_loop_outcomes self metadata i chunks n st :
  exists outcomes,
    stored (add_chunks_loop self metadata i chunks n st).2
    = stored st ++ stored_of outcomes /\
    (length outcomes <= length chunks)%nat /\
    (forall (j : nat) chunk o, chunks !! j = Some chunk -> outcomes !! j = Some o ->
       outcome_ok self metadata (i + j) chunk o) /\
    (forall m, (add_chunks_loop self metadata i chunks n st).1 = Ok m ->
       length outcomes = length chunks /\
       m = (n + length (stored_of outcomes))%nat).
Proof.
  revert i n st. induction chunks as [|chunk rest IH]; intros i n st.
  { exists []. simpl. rewrite app_nil_r. split; [done|]. split; [done|].
    split; [done|]. by intros m [= <-]. }
  simpl. destruct (Py.truthy (Py.strip chunk)) eqn:Hblank; simpl.
  2:{ destruct (IH (S i) n st) as (os & Hst & Hlen & Hok & Hn).
      exists (None :: os). simpl. split; [done|]. split; [lia|]. split.
      - intros [|j] c o; simpl.
        + intros [= <-] [= <-]. rewrite Nat.add_0_r. by left.
        + intros Hc Ho. replace (i + S j)%nat with (S i + j)%nat by lia. eauto.
      - intros m Hm. destruct (Hn m Hm) as [-> ->]. done. }
  unfold get_embedding.
  destruct (embeddings_create (embedding_model self) chunk (world st))
    as [[e|emsg] w] eqn:Hemb.
  2:{ destruct (IH (S i) n (mkState w (stored st))) as (os & Hst & Hlen & Hok & Hn).
      exists (None :: os). simpl. split; [done|]. split; [lia|]. split.
      - intros [|j] c o; simpl.
        + intros [= <-] [= <-]. rewrite Nat.add_0_r. right. eauto.
        + intros Hc Ho. replace (i + S j)%nat with (S i + j)%nat by lia. eauto.
      - intros m Hm. destruct (Hn m Hm) as [-> ->]. done. }
  destruct (doc_id metadata i) as [id|msg] eqn:Hid.
  2:{ exists []. simpl. rewrite app_nil_r. repeat split; try done; lia. }
  unfold collection_add. simpl.
  destruct (collection_add_call _ _ _ _ _) as [[[]|msg] w'] eqn:Hadd.
  2:{ exists []. simpl. rewrite app_nil_r. repeat split; try done; lia. }
  set (r := mkRecord id e chunk _).
  destruct (IH (S i) (S n) (mkState w' (stored st ++ [r])))
    as (os & Hst & Hlen & Hok & Hn).
  exists (Some r :: os). simpl in *. split; [by rewrite Hst, <- app_assoc|].
  split; [lia|]. split.
  - intros [|j] c o; simpl.
    + intros [= <-] [= <-]. rewrite Nat.add_0_r. simpl.
      split; [done|]. split; [done|]. split; [by apply doc_id_Ok|].
      split; [done|]. eauto.
    + intros Hc Ho. replace (i + S j)%nat with (S i + j)%nat by lia. eauto.
  - intros m Hm. destruct (Hn m Hm) as [-> ->]. split; [done|]. lia.
Qed.

Lemma traced_cons self metadata i chunk rest st o s1 outcomes states :
  settled self metadata i chunk st o s1 ->
  traced self metadata (S i) rest s1 outcomes states ->
  traced self metadata i (chunk :: rest) st (o :: outcomes) (s1 :: states).
Proof.
  intros Hstep (Hlen & Hle & Hall). split; [simpl; lia|]. split; [simpl; lia|].
  intros [|j] c o' s s'; simpl.
  - intros [= <-] [= <-] [= <-] [= <-]. by rewrite Nat.add_0_r.
  - intros Hc Ho Hs Hs'. replace (i + S j)%nat with (S i + j)%nat by lia.
    by apply Hall.
Qed.

Lemma traced_nil self metadata i chunks st : traced self metadata i chunks st [] [].
Proof. split; [done|]. split; [simpl; lia|]. by intros j c o s s' _ Ho. Qed.

(** The loop from index [i]: the chunks it reaches are settled one
    after the other, the records accepted are those of its outcomes,
    and a loop that ends without raising has reached every chunk and
    counted the records accepted. *)
Lemma add_chunks_loop_trace self metadata i chunks n st :
  exists outcomes states,
    traced self metadata i chunks st outcomes states /\
    stored (add_chunks_loop self metadata i chunks n st).2
    = stored (default st (last states)) /\
    stored (default st (last states)) = stored st ++ stored_of outcomes /\
    (forall m, (add_chunks_loop self metadata i chunks n st).1 = Ok m ->
       (add_chunks_loop self metadata i chunks n st).2 = default st (last states) /\
       length outcomes = length chunks /\
       m = (n + length (stored_of outcomes))%nat).
Proof.
  revert i n st. induction chunks as [|chunk rest IH]; intros i n st.
  { exists [], []. split; [apply traced_nil|]. simpl. rewrite app_nil_r.
    split; [done|]. split; [done|]. by intros m [= <-]. }
  assert (forall o s1 k,
    settled self metadata i chunk st o s1 ->
    stored s1 = stored st ++ stored_of [o] ->
    k = (n + length (stored_of [o]))%nat ->
    add_chunks_loop self metadata i (chunk :: rest) n st
    = add_chunks_loop self metadata (S i) rest k s1 ->
    exists outcomes states,
      traced self metadata i (chunk :: rest) st outcomes states /\
      stored (add_chunks_loop self metadata i (chunk :: rest) n st).2
      = stored (default st (last states)) /\
      stored (default st (last states)) = stored st ++ stored_of outcomes /\
      (forall m, (add_chunks_loop self metadata i (chunk :: rest) n st).1 = Ok m ->
         (add_chunks_loop self metadata i (chunk :: rest) n st).2
         = default st (last states) /\
         length outcomes = length (chunk :: rest) /\
         m = (n + length (stored_of outcomes))%nat)) as Hgo.
  { intros o s1 k Hstep Hsto -> ->.
    destruct (IH (S i) (n + length (stored_of [o]))%nat s1)
      as (os & ss & Htr & Hfin & Hst & Hm).
    exists (o :: os), (s1 :: ss).
    assert (default st (last (s1 :: ss)) = default s1 (last ss)) as ->.
    { destruct ss as [|s2 ss]; [done|]. rewrite !last_cons.
      by destruct (last ss). }
    split; [by apply traced_cons|]. split; [done|].
    split.
    { rewrite Hst, Hsto, <- app_assoc. f_equal. by destruct o. }
    intros m Hok. destruct (Hm m Hok) as (Hs & Hl & Hk).
    split; [done|]. split; [simpl; lia|].
    destruct o; simpl in *; lia. }
  cbn [add_chunks_loop] in *.
  destruct (Py.truthy (Py.strip chunk)) eqn:Hblank; cbn [negb] in *.
  2:{ apply (Hgo None st n); [by constructor|by rewrite app_nil_r|simpl; lia|done]. }
  unfold get_embedding in *.
  destruct (embeddings_create (embedding_model self) chunk (world st))
    as [[e|emsg] w] eqn:Hemb.
  2:{ apply (Hgo None (mkState w (stored st)) n);
        [by econstructor|by simpl; rewrite app_nil_r|simpl; lia|done]. }
  unfold doc_id in *.
  destruct (metadata !! "filename"%string) as [[name| |]|] eqn:Hname;
    try (exists [], []; split; [apply traced_nil|]; simpl; rewrite app_nil_r;
         by repeat split).
  unfold collection_add in *.
  cbn [rec_id rec_embedding rec_document rec_metadata world stored] in *.
  destruct (collection_add_call _ _ _ _ _) as [[[]|msg] w'] eqn:Hadd.
  2:{ exists [], []. split; [apply traced_nil|]. simpl. rewrite app_nil_r.
      by repeat split. }
  eapply (Hgo (Some _) _ (S n)); [by econstructor| done | simpl; lia | done].
Qed.

(** The loop over [pre ++ rest] is the loop over [pre], then over
    [rest] from where that one left off. *)
Lemma add_chunks_loop_app self metadata i pre rest n st :
  add_chunks_loop self metadata i (pre ++ rest) n st =
  match add_chunks_loop self metadata i pre n st with
  | (Ok m, st1) => add_chunks_loop self metadata (i + length pre) rest m st1
  | (Raise msg, st1) => (Raise msg, st1)
  end.
Proof.
  revert i n st. induction pre as [|c pre IH]; intros i n st; simpl.
  { by rewrite Nat.add_0_r. }
  replace (i + S (length pre))%nat with (S i + length pre)%nat by lia.
  destruct (negb _); [apply IH|].
  destruct (get_embedding _ _ _) as [[e|] w]; [|apply IH].
  destruct (doc_id metadata i); [|done].
  destruct (collection_add _ _) as [[[]|] st1]; [apply IH|done].
Qed.

End IngestionFacts.

(** ** Termination of [process_file] *)

Section ProcessFileFacts.
Context `{Externals}.

(** A processor whose chunker makes progress returns from every file,
    given fuel for the length of the extracted text. *)
Lemma process_file_returns fuel p file_path :
  progressing (chunk_size p) (chunk_overlap p) ->
  Py.len (ex_text (extract_text_from_file p file_path)) <= Z.of_nat fuel ->
  is_Some (process_file fuel p file_path).
Proof.
  intros Hprog Hfuel. unfold process_file.
  destruct (ex_success _); simpl; [|done].
  set (txt := ex_text _) in *.
  destruct (Z.le_gt_cases (Py.len txt) (chunk_size p)) as [Hshort|Hlong].
  - rewrite (chunk_text_early_return fuel p txt None None) by done. done.
  - destruct (chunk_text_returns fuel p txt None None) as (ws & _ & _ & ->);
      done.
Qed.

End ProcessFileFacts.

(** ** Properties of the ingestion and of the retrieval *)

Section PipelineClaims.
Context `{Externals}.


(** C9. When [collection.add] raises on a chunk after the chunks before
    it went through, the call reports failure with [chunks_added = 0],
    and the collection still holds the [n] records stored before the
    failing chunk: nothing is rolled back. *)
Theorem add_document_chunks_no_rollback
    self metadata name pre chunk post st n st1 e w2 msg w3 :
  metadata !! "filename"%string = Some (MStr name) ->
  add_chunks_loop self metadata 0 pre 0 st = (Ok n, st1) ->
  Py.truthy (Py.strip chunk) = true ->
  embeddings_create (embedding_model self) chunk (world st1) = (Ok e, w2) ->
  collection_add_call
    (path_stem name ++ T "_" ++ Py.str_of_nat (length pre)) e chunk
    (<[ "chunk_id"%string := MInt (Z.of_nat (length pre)) ]> metadata) w2
  = (Raise msg, w3) ->
  add_document_chunks self (pre ++ chunk :: post) metadata st
  = (mkAdd false 0 (T "Error adding chunks: " ++ msg), mkState w3 (stored st1)) /\
  exists before, stored st1 = stored st ++ before /\ length before = n.
Proof.
  intros Hname Hpre Hblank Hemb Hadd. split.
  - unfold add_document_chunks. rewrite add_chunks_loop_app, Hpre.
    change (0 + length pre)%nat with (length pre).
    cbn [add_chunks_loop]. rewrite Hblank. cbn [negb].
    unfold get_embedding. rewrite Hemb.
    unfold doc_id. rewrite Hname. unfold collection_add.
    cbn [rec_id rec_embedding rec_document rec_metadata world stored].
    by rewrite Hadd.
  - destruct (add_chunks_loop_outcomes self metadata 0 pre 0 st)
      as (outcomes & Hst & _ & _ & Hn).
    rewrite Hpre in Hst, Hn. simpl in *.
    destruct (Hn n eq_refl) as [_ ->]. by exists (stored_of outcomes).
Qed.

(** C8. When the embedding of the question succeeds and the collection
    answers the query with no document (no list, an empty list, or an
    empty first list), [answer_question] succeeds with the canned
    answer and no sources. *)
Theorem answer_question_no_matches
    config question n_results w e w1 documents metadatas distances w2 :
  embeddings_create (CHROMA_EMBEDDING_MODEL config) question w = (Ok e, w1) ->
  collection_query e (Py.or_default n_results (DEFAULT_RETRIEVAL_K config)) w1
  = (Ok (documents, metadatas, distances), w2) ->
  documents = None \/ documents = Some [] \/
  (exists rest, documents = Some ([] :: rest)) ->
  answer_question config question n_results w
  = (mkQuery true no_information [], w2) /\
  no_information
  = T "I couldn't find any relevant information to answer your question.".
Proof.
  intros Hemb Hquery Hzero. split; [|done].
  unfold answer_question, get_embedding. rewrite Hemb, Hquery.
  by destruct Hzero as [->|[->|[rest ->]]].
Qed.

End PipelineClaims.


Lemma add_document_chunks_no_rollback_witness :
  @add_document_chunks demo_externals demo_ingestion
    ([T "one"; T "  "; T "???"; T "two"] ++ T "boom" :: [T "three"])
    demo_metadata demo_state
  = (mkAdd false 0 (T "Error adding chunks: disk full"),
     mkState (7%nat : @World demo_externals)
       (stored (@add_chunks_loop demo_externals demo_ingestion demo_metadata 0
                  [T "one"; T "  "; T "???"; T "two"] 0 demo_state).2)) /\
  exists before,
    stored (@add_chunks_loop demo_externals demo_ingestion demo_metadata 0
              [T "one"; T "  "; T "???"; T "two"] 0 demo_state).2
    = stored demo_state ++ before /\ length before = 2%nat.
Proof.
  apply (@add_document_chunks_no_rollback demo_externals demo_ingestion
           demo_metadata (T "notes.pdf") [T "one"; T "  "; T "???"; T "two"]
           (T "boom") [T "three"] demo_state 2%nat _ 4 (6%nat : @World demo_externals)
           (T "disk full") (7%nat : @World demo_externals));
    by vm_compute.
Defined.

(** C1.  The code at the failing input.  The folder [docs] holds
    [pad.pdf], whose text is ten spaces and a letter, and [ok.pdf];
    the chunk size is 10 and the overlap 9, which is below it.  The
    first window of [pad.pdf] is cut at the space at offset 9, its
    text is blank, so no chunk is appended, and the next window
    starts at offset 0 again: the loop repeats that step for ever and
    raises nothing, however little memory there is, so the [except]
    branch of [process_file] is not reached.  [process_file] returns
    for no fuel, and neither does the folder ingestion: [ok.pdf],
    which on its own is processed into one chunk, is never reached,
    and no summary is made. *)
Lemma process_and_add_folder_blocked_by_stalled_file :
  let self := narrow_ingestion in
  let pad := T "          a" in
  chunk_size (doc_processor self) = 10 /\ chunk_overlap (doc_processor self) = 9 /\
  @supported_files padded_externals (doc_processor self) (T "docs")
  = [T "pad.pdf"; T "ok.pdf"] /\
  ex_text (@extract_text_from_file padded_externals (doc_processor self) (T "pad.pdf"))
  = pad /\
  cut_end pad 10 0 = 9 /\ Py.strip (Py.slice pad 0 9) = [] /\
  (forall fuel,
     @process_file padded_externals fuel (doc_processor self) (T "pad.pdf") = None) /\
  (forall heap oom fuel,
     @process_file_within padded_externals heap oom fuel (doc_processor self)
       (T "pad.pdf") = None) /\
  (exists r,
     @process_file padded_externals 0 (doc_processor self) (T "ok.pdf") = Some r /\
     pr_success r = true /\ pr_chunks r = [T "fine"]) /\
  (forall fuel st,
     @process_and_add_folder padded_externals fuel self (T "docs") st = None).
Proof.
  assert (Hpad : forall fuel,
    @process_file padded_externals fuel (doc_processor narrow_ingestion) (T "pad.pdf")
    = None).
  { intros fuel. unfold process_file.
    change (ex_success _) with true. cbn [negb].
    change (ex_text _) with (T "          a").
    unfold chunk_text. change (Py.len _ <=? _) with false. cbv iota.
    by rewrite chunk_loop_stuck. }
  do 6 (split; [done|]). split; [exact Hpad|].
  split.
  { intros heap oom fuel. unfold process_file_within.
    change (ex_success _) with true. cbn [negb].
    change (ex_text _) with (T "          a").
    unfold chunk_text_within. change (Py.len _ <=? _) with false. cbv iota.
    by rewrite chunk_loop_within_spins. }
  split; [by eexists|].
  intros fuel st. unfold process_and_add_folder, process_folder.
  change (path_exists _) with true. change (path_is_dir _) with true. cbn [negb].
  change (supported_files _ _) with [T "pad.pdf"; T "ok.pdf"].
  cbv beta iota. cbn [process_folder_loop]. by rewrite Hpad.
Qed.

Lemma answer_question_no_matches_witness :
  @answer_question demo_externals demo_config (T "why?") None 0%nat
  = (mkQuery true no_information [], 2%nat : @World demo_externals) /\
  @no_information
  = T "I couldn't find any relevant information to answer your question.".
Proof.
  apply (@answer_question_no_matches demo_externals demo_config (T "why?") None
           (0%nat : @World demo_externals) 4 (1%nat : @World demo_externals)
           (Some [[]]) (Some [[]]) (Some [[]]) (2%nat : @World demo_externals)).
  - reflexivity.
  - reflexivity.
  - right. right. by exists [].
Defined.

(** ** More facts about stripping *)

Lemma lstrip_suffix s :
  exists pre, s = pre ++ Py.lstrip s /\ blank pre.
Proof.
  induction s as [|x r (pre & Hr & Hpre)]; simpl.
  { exists []. split; [done|constructor]. }
  destruct (Py.isspace x) eqn:Hx.
  - exists (x :: pre). split; [simpl; by f_equal|by constructor].
  - exists []. split; [done|constructor].
Qed.

Lemma lstrip_head s x r : Py.lstrip s = x :: r -> Py.isspace x = false.
Proof.
  induction s as [|y t IH]; simpl; [done|].
  destruct (Py.isspace y) eqn:Hy; [done|]. by intros [= <- <-].
Qed.

Lemma rstrip_prefix s :
  exists post, s = Py.rstrip s ++ post /\ blank post.
Proof.
  unfold Py.rstrip. destruct (lstrip_suffix (reverse s)) as (pre & Hr & Hpre).
  exists (reverse pre). split.
  - rewrite <- reverse_app, <- Hr. by rewrite reverse_involutive.
  - unfold blank in *. by rewrite Forall_reverse.
Qed.

Lemma rstrip_last s d : last (Py.rstrip s) = Some d -> Py.isspace d = false.
Proof.
  unfold Py.rstrip. rewrite last_reverse.
  destruct (Py.lstrip (reverse s)) as [|x r] eqn:Hl; [done|].
  intros [= <-]. by apply (lstrip_head _ _ _ Hl).
Qed.

(** What [strip] returns is a run of characters of its argument, with
    only whitespace before and after. *)
Lemma strip_infix s :
  exists pre post, s = pre ++ Py.strip s ++ post /\ blank pre /\ blank post.
Proof.
  unfold Py.strip.
  destruct (lstrip_suffix s) as (pre & Hs & Hpre).
  destruct (rstrip_prefix (Py.lstrip s)) as (post & Hl & Hpost).
  exists pre, post. split; [|done]. by rewrite <- Hl.
Qed.

Lemma strip_stripped s : stripped (Py.strip s).
Proof.
  unfold stripped. destruct (Py.strip s) as [|x r] eqn:Hst; [done|].
  unfold Py.strip in Hst. split.
  - destruct (rstrip_prefix (Py.lstrip s)) as (post & Hl & _).
    rewrite Hst in Hl. simpl in Hl. by apply (lstrip_head s x (r ++ post)).
  - assert (is_Some (last (x :: r))) as [d Hd].
    { rewrite last_is_Some. done. }
    exists d. split; [done|]. apply (rstrip_last (Py.lstrip s)). by rewrite Hst.
Qed.

(** A character that is not whitespace survives stripping. *)
Lemma strip_keeps s x : x ∈ s -> Py.isspace x = false -> x ∈ Py.strip s.
Proof.
  intros Hin Hx. destruct (strip_infix s) as (pre & post & Hs & Hpre & Hpost).
  rewrite Hs in Hin.
  apply elem_of_app in Hin as [Hin|Hin].
  { unfold blank in Hpre. rewrite Forall_forall in Hpre.
    specialize (Hpre x Hin). congruence. }
  apply elem_of_app in Hin as [Hin|Hin]; [done|].
  unfold blank in Hpost. rewrite Forall_forall in Hpost.
  specialize (Hpost x Hin). congruence.
Qed.

Lemma truthy_nonempty (s : text) : Py.truthy s = true <-> s <> [].
Proof. by destruct s. Qed.

(** A text whose stripped form is not empty has a character that is not
    whitespace. *)
Lemma strip_truthy_elem s :
  Py.truthy (Py.strip s) = true -> exists x, x ∈ s /\ Py.isspace x = false.
Proof.
  intros Ht. pose proof (strip_stripped s) as Hst.
  destruct (strip_infix s) as (pre & post & Hs & _).
  destruct (Py.strip s) as [|x r]; [done|].
  exists x. split; [|by destruct Hst].
  rewrite Hs. apply elem_of_app. right. by left.
Qed.

(** ** More facts about slices *)

Lemma slice_infix s lo hi : infix_of (Py.slice s lo hi) s.
Proof.
  unfold Py.slice.
  set (a := Z.to_nat (Py.clamp lo (Py.len s))).
  set (n := Z.to_nat (Py.clamp hi (Py.len s) - Py.clamp lo (Py.len s))).
  exists (take a s), (drop n (drop a s)).
  by rewrite take_drop, take_drop.
Qed.

Lemma infix_of_trans (a b c : text) : infix_of a b -> infix_of b c -> infix_of a c.
Proof.
  intros (p1 & q1 & ->) (p2 & q2 & ->).
  exists (p2 ++ p1), (q1 ++ q2). by rewrite <- !app_assoc.
Qed.

Lemma infix_of_length (a b : text) : infix_of a b -> (length a <= length b)%nat.
Proof. intros (p & q & ->). rewrite !length_app. lia. Qed.

(** A window of [cs] characters holds at most [cs] of them, wherever it
    starts. *)
Lemma slice_window_length_any s lo cs :
  0 <= cs -> Py.len (Py.slice s lo (lo + cs)) <= cs.
Proof.
  intros Hcs. pose proof (len_nonneg s). unfold Py.slice, Py.len, Py.clamp in *.
  rewrite length_take.
  destruct (Z.ltb_spec lo 0); destruct (Z.ltb_spec (lo + cs) 0); lia.
Qed.

(** The window never ends more than [cs] characters after its start. *)
Lemma cut_end_upper txt cs start :
  0 <= cs -> cut_end txt cs start <= start + cs.
Proof.
  intros Hcs. unfold cut_end, beyond_80pct.
  pose proof (slice_window_length_any txt start cs Hcs) as Hlen.
  pose proof (rfind_bounds "." (Py.slice txt start (start + cs))) as Hp.
  pose proof (rfind_bounds " " (Py.slice txt start (start + cs))) as Hsp.
  repeat case_match; lia.
Qed.

Lemma cut_end_lower txt cs start :
  0 <= cs -> start <= cut_end txt cs start.
Proof.
  intros Hcs. unfold cut_end, beyond_80pct.
  repeat case_match; lia.
Qed.

Lemma slice_length_le s lo e cs :
  lo <= e <= lo + cs -> Py.len (Py.slice s lo e) <= cs.
Proof.
  intros He. pose proof (len_nonneg s). unfold Py.slice, Py.len, Py.clamp in *.
  rewrite length_take.
  destruct (Z.ltb_spec lo 0); destruct (Z.ltb_spec e 0); lia.
Qed.

(** ** The chunks of the loop *)

Lemma window_chunk_good txt cs start c :
  0 <= cs ->
  window_chunk txt (start, cut_end txt cs start) = Some c ->
  good_chunk txt cs c.
Proof.
  intros Hcs. unfold window_chunk. simpl.
  destruct (Py.truthy _) eqn:Ht; [|done]. intros [= <-].
  set (w := Py.slice txt start (cut_end txt cs start)) in *.
  destruct (strip_infix w) as (pre & post & Hw & _).
  assert (infix_of (Py.strip w) w) as Hin by (by exists pre, post).
  split; [by apply truthy_nonempty|]. split; [apply strip_stripped|].
  split; [apply (infix_of_trans _ w); [done|apply slice_infix]|].
  pose proof (infix_of_length _ _ Hin) as Hl1.
  pose proof (slice_length_le txt start (cut_end txt cs start) cs
                (conj (cut_end_lower txt cs start Hcs) (cut_end_upper txt cs start Hcs)))
    as Hl2.
  fold w in Hl2. unfold Py.len in *. lia.
Qed.

Lemma chunk_loop_good fuel txt cs ov start chunks r :
  0 <= cs ->
  chunk_loop fuel txt cs ov start chunks = Some r ->
  exists new, r = chunks ++ new /\ Forall (good_chunk txt cs) new.
Proof.
  intros Hcs. revert start chunks.
  induction fuel as [|fuel IH]; intros start chunks; simpl.
  { destruct (start <? Py.len txt); [done|]. intros [= <-].
    exists []. by rewrite app_nil_r. }
  destruct (start <? Py.len txt);
    [|intros [= <-]; exists []; by rewrite app_nil_r].
  pose proof (window_chunk_good txt cs start) as Hgood.
  unfold window_chunk in Hgood. simpl in Hgood.
  destruct (Py.truthy _) eqn:Ht.
  - specialize (Hgood _ Hcs eq_refl).
    destruct (Py.len txt <=? cut_end txt cs start - ov).
    + intros [= <-]. eexists. split; [done|]. by constructor.
    + intros Hr. destruct (IH _ _ Hr) as (new & -> & Hnew).
      eexists (_ :: new). split; [by rewrite <- app_assoc|]. by constructor.
  - destruct (Py.len txt <=? cut_end txt cs start - ov).
    + intros [= <-]. exists []. by rewrite app_nil_r.
    + apply IH.
Qed.

(** With an overlap of at least the chunk size the start offset never
    gets past 0. *)
Lemma chunk_loop_no_advance fuel txt cs ov start chunks :
  0 <= cs <= ov -> 0 < Py.len txt -> start <= 0 ->
  chunk_loop fuel txt cs ov start chunks = None.
Proof.
  intros Hov Hlen. revert start chunks.
  induction fuel as [|fuel IH]; intros start chunks Hs; simpl.
  { by destruct (Z.ltb_spec start (Py.len txt)); [|lia]. }
  destruct (Z.ltb_spec start (Py.len txt)); [|lia].
  pose proof (cut_end_upper txt cs start ltac:(lia)).
  destruct (Z.leb_spec (Py.len txt) (cut_end txt cs start - ov)); [lia|].
  apply IH. lia.
Qed.

(** The windows of a progressing run start at non-negative offsets. *)
Lemma chained_nonneg txt cs ov start ws w :
  progressing cs ov -> 0 <= start -> chained txt cs ov start ws ->
  w ∈ ws -> 0 <= w.1 /\ w.2 = cut_end txt cs w.1.
Proof.
  intros (Hcs & Hov & H80). revert start.
  induction ws as [|a ws IH]; intros start Hs Hch Hw; [by apply elem_of_nil in Hw|].
  pose proof (cut_end_progress txt cs start ov Hs Hcs H80) as He.
  destruct Hch as (Ha1 & Ha2 & Hrest).
  apply elem_of_cons in Hw as [->|Hw]; [rewrite Ha1; split; [lia|done]|].
  destruct ws as [|b ws]; [by apply elem_of_nil in Hw|].
  destruct Hrest as [Hlt Hch]. apply (IH (a.2 - ov)); [lia|done|done].
Qed.

(** The character at an offset of a window is in the slice of the
    window. *)
Lemma slice_elem txt lo hi (k : nat) x :
  0 <= lo -> lo <= Z.of_nat k < hi -> txt !! k = Some x ->
  x ∈ Py.slice txt lo hi.
Proof.
  intros Hlo Hk Hx. pose proof (lookup_lt_Some _ _ _ Hx) as Hlt.
  rewrite slice_clip by lia.
  apply list_elem_of_lookup. exists (k - Z.to_nat lo)%nat.
  rewrite slice_lookup; unfold Py.len in *; [|lia..].
  rewrite <- Hx. f_equal. lia.
Qed.

(** A character that is not whitespace ends up in a chunk of a
    progressing run. *)
Lemma chunk_text_keeps_char fuel p txt cs_arg ov_arg (k : nat) x :
  progressing (effective_chunk_size p cs_arg) (effective_overlap p ov_arg) ->
  effective_chunk_size p cs_arg < Py.len txt ->
  Py.len txt <= Z.of_nat fuel ->
  txt !! k = Some x -> Py.isspace x = false ->
  exists chunks,
    chunk_text fuel p txt cs_arg ov_arg = Some chunks /\
    chunks <> [] /\ (exists c, c ∈ chunks /\ x ∈ c).
Proof.
  intros Hprog Hlong Hfuel Hk Hx.
  destruct (chunk_text_returns fuel p txt cs_arg ov_arg Hprog Hlong Hfuel)
    as (ws & Hws & Hch & ->).
  pose proof (lookup_lt_Some _ _ _ Hk) as Hklt.
  pose proof Hprog as (Hcs & Hov & H80).
  destruct (chained_cover txt _ _ 0 ws (Z.of_nat k) Hov Hch)
    as (w & Hw & Hkw); [unfold Py.len; lia|].
  destruct (chained_nonneg txt _ _ 0 ws w Hprog ltac:(lia) Hch Hw) as [Hw0 _].
  assert (x ∈ Py.strip (Py.slice txt w.1 w.2)) as Hin.
  { apply strip_keeps; [|done]. by apply (slice_elem txt w.1 w.2 k). }
  assert (window_chunk txt w = Some (Py.strip (Py.slice txt w.1 w.2))) as Hwc.
  { unfold window_chunk. destruct (Py.strip _); [by apply elem_of_nil in Hin|done]. }
  assert (Py.strip (Py.slice txt w.1 w.2) ∈ omap (window_chunk txt) ws) as Hc.
  { apply list_elem_of_omap. by exists w. }
  eexists. split; [done|]. split.
  - intros Hnil. rewrite Hnil in Hc. by apply elem_of_nil in Hc.
  - eauto.
Qed.


(** The windows a returning run cuts form a chain. *)
Lemma chunk_windows_chained fuel txt cs ov start ws :
  start < Py.len txt ->
  chunk_windows fuel txt cs ov start = Some ws ->
  chained txt cs ov start ws.
Proof.
  revert start ws. induction fuel as [|fuel IH]; intros start ws Hs; simpl.
  { by destruct (Z.ltb_spec start (Py.len txt)); [|lia]. }
  destruct (Z.ltb_spec start (Py.len txt)); [|lia].
  destruct (Z.leb_spec (Py.len txt) (cut_end txt cs start - ov)) as [Hl|Hl].
  - by intros [= <-].
  - destruct (chunk_windows fuel txt cs ov _) as [ws'|] eqn:Hws; [|done].
    intros [= <-]. pose proof (IH _ _ Hl Hws) as Hch.
    simpl. destruct ws' as [|w' ws']; done.
Qed.

(** Every window of a chain starts inside the text. *)
Lemma chained_start_inside txt cs ov start ws (i : nat) w :
  chained txt cs ov start ws -> start < Py.len txt ->
  ws !! i = Some w -> w.1 < Py.len txt.
Proof.
  revert start i. induction ws as [|a ws IH]; intros start i Hch Hs Hw; [done|].
  destruct Hch as (Ha1 & Ha2 & Hrest).
  destruct i as [|i]; simpl in Hw.
  - injection Hw as <-. lia.
  - destruct ws as [|b ws]; [done|]. destruct Hrest as [Hlt Hch].
    by apply (IH (a.2 - ov) i).
Qed.

(** ** Facts about extraction and processing *)

Section ProcessorFacts.
Context `{Externals}.

(** The two shapes of an extraction result. *)
Lemma extract_text_from_file_shape p f :
  let r := extract_text_from_file p f in
  (ex_success r = false /\ ex_text r = [] /\ is_Some (ex_error r) /\
   ex_metadata r !! "text_length"%string = None) \/
  (ex_success r = true /\ ex_error r = None /\
   Py.truthy (Py.strip (ex_text r)) = true /\
   path_exists f = true /\
   st_size f <= max_file_size_mb p * (1024 * 1024) /\
   str_lower (path_suffix f) ∈ supported_extensions p /\
   ex_metadata r !! "filename"%string = Some (MStr (path_name f)) /\
   ex_metadata r !! "file_path"%string = Some (MStr f) /\
   ex_metadata r !! "file_extension"%string
   = Some (MStr (str_lower (path_suffix f))) /\
   ex_metadata r !! "file_size_mb"%string
   = Some (MFloatDiv (st_size f) (1024 * 1024)) /\
   ex_metadata r !! "text_length"%string = Some (MInt (Py.len (ex_text r)))).
Proof.
  unfold extract_text_from_file.
  destruct (path_exists f) eqn:Hex; simpl; [|left; eauto].
  destruct (Z.ltb_spec (max_file_size_mb p * (1024 * 1024)) (st_size f)); simpl.
  { left. repeat split; eauto. }
  destruct (bool_decide_reflect (str_lower (path_suffix f) ∈ supported_extensions p))
    as [Hsup|Hsup]; simpl.
  2:{ left. repeat split; eauto. }
  destruct (if bool_decide (str_lower (path_suffix f) = T ".pdf") then _ else _)
    as [txt|msg]; simpl.
  2:{ left. repeat split; eauto. }
  destruct (Py.truthy (Py.strip txt)) eqn:Ht; simpl.
  2:{ left. repeat split; eauto. }
  right. repeat split; done.
Qed.

(** A successful [process_file] keeps the file name of the extraction. *)
Lemma process_file_filename fuel p f r :
  process_file fuel p f = Some r -> pr_success r = true ->
  pr_metadata r !! "filename"%string = Some (MStr (path_name f)).
Proof.
  unfold process_file.
  destruct (extract_text_from_file_shape p f)
    as [(Hs & _)|(Hs & _ & _ & _ & _ & _ & Hname & _)]; rewrite Hs; simpl.
  { by intros [= <-]. }
  destruct (chunk_text _ _ _ _ _) as [chunks|]; simpl; [|done].
  intros [= <-] _. simpl. by rewrite !lookup_insert_ne.
Qed.

(** The first loop, file by file: the successful files and the failed
    files keep the order of the files found, and the total is the
    number of chunks of the successful ones. *)
Lemma process_folder_loop_exact fuel p files processed failed total :
  (forall f, f ∈ files -> is_Some (process_file fuel p f)) ->
  exists processed' failed',
    process_folder_loop fuel p files processed failed total
    = Some (processed ++ processed', failed ++ failed',
            total + foldr (fun e acc => Py.len_list (pf_chunks e) + acc) 0 processed') /\
    map pf_file_path processed' = filter (fun f => file_succeeds fuel p f = true) files /\
    map ff_file_path failed' = filter (fun f => file_succeeds fuel p f <> true) files /\
    Forall (fun e => exists r, process_file fuel p (pf_file_path e) = Some r /\
                       pr_chunks r = pf_chunks e /\ pr_metadata r = pf_metadata e)
           processed'.
Proof.
  revert processed failed total.
  induction files as [|f rest IH]; intros processed failed total Hret; simpl.
  { exists [], []. simpl. by rewrite !app_nil_r, Z.add_0_r. }
  destruct (Hret f) as [r Hr]; [left|].
  assert (Hrest : forall g, g ∈ rest -> is_Some (process_file fuel p g)).
  { intros g Hg. apply Hret. by right. }
  assert (Hfs : file_succeeds fuel p f = pr_success r).
  { unfold file_succeeds. by rewrite Hr. }
  rewrite Hr. simpl.
  destruct (pr_success r) eqn:Hs.
  - destruct (IH (processed ++ [mkProcessed f (pr_chunks r) (pr_metadata r)])
                failed (total + Py.len_list (pr_chunks r)) Hrest)
      as (P & F & -> & HP & HF & Hall).
    exists (mkProcessed f (pr_chunks r) (pr_metadata r) :: P), F.
    rewrite <- !app_assoc. simpl. split; [f_equal; f_equal; lia|].
    rewrite filter_cons_True by done. rewrite filter_cons_False by (by rewrite Hfs; intros []).
    split; [by f_equal|]. split; [done|].
    constructor; [|done]. simpl. by exists r.
  - destruct (IH processed (failed ++ [mkFailed f (pr_error r) (pr_metadata r)])
                total Hrest)
      as (P & F & -> & HP & HF & Hall).
    exists P, (mkFailed f (pr_error r) (pr_metadata r) :: F).
    rewrite <- !app_assoc. simpl. split; [done|].
    rewrite filter_cons_False by (by rewrite Hfs). rewrite filter_cons_True by (by rewrite Hfs).
    split; [done|]. split; [by f_equal|done].
Qed.

(** On a processor whose chunker makes progress [process_file] returns:
    the failure of the extraction, or the chunks of the text, of which
    there is at least one, with the two entries added to the metadata. *)
Lemma process_file_shape fuel p f :
  progressing (chunk_size p) (chunk_overlap p) ->
  Py.len (ex_text (extract_text_from_file p f)) <= Z.of_nat fuel ->
  (ex_success (extract_text_from_file p f) = false /\
   process_file fuel p f
   = Some (mkProcess false [] (ex_metadata (extract_text_from_file p f))
             (ex_error (extract_text_from_file p f)))) \/
  (ex_success (extract_text_from_file p f) = true /\
   exists chunks,
     chunk_text fuel p (ex_text (extract_text_from_file p f)) None None = Some chunks /\
     chunks <> [] /\
     process_file fuel p f
     = Some (mkProcess true chunks
               (<[ "average_chunk_size"%string :=
                     MFloatDiv (total_length chunks) (Py.len_list chunks) ]>
                (<[ "chunk_count"%string := MInt (Py.len_list chunks) ]>
                 (ex_metadata (extract_text_from_file p f))))
               None)).
Proof.
  intros Hprog Hfuel. unfold process_file.
  destruct (extract_text_from_file_shape p f) as [(Hs & _)|(Hs & _ & Ht & _)];
    rewrite Hs; simpl.
  { by left. }
  right. split; [done|].
  set (txt := ex_text _) in *.
  assert (exists chunks, chunk_text fuel p txt None None = Some chunks /\ chunks <> [])
    as (chunks & -> & Hne).
  { destruct (Z.le_gt_cases (Py.len txt) (chunk_size p)) as [Hshort|Hlong].
    - rewrite (chunk_text_early_return fuel p txt None None) by done. by eexists.
    - destruct (strip_truthy_elem txt Ht) as (x & [k Hk]%list_elem_of_lookup & Hx).
      destruct (chunk_text_keeps_char fuel p txt None None k x)
        as (chunks & -> & Hne & _); try done. by eexists. }
  exists chunks. split; [done|]. split; [done|]. simpl.
  by destruct chunks.
Qed.

(** In bounded memory, on a processor whose chunker makes progress,
    [process_file_within] returns what [process_file] returns when the
    chunks fit, and the failure of the [except] branch otherwise. *)
Lemma process_file_within_shape heap oom fuel p f :
  progressing (chunk_size p) (chunk_overlap p) ->
  Py.len (ex_text (extract_text_from_file p f)) <= Z.of_nat fuel ->
  exists r,
    process_file fuel p f = Some r /\
    process_file_within heap oom fuel p f
    = Some (if bool_decide (length (pr_chunks r) <= heap)%nat then r
            else chunking_failure p f oom).
Proof.
  intros Hprog Hfuel.
  destruct (process_file_shape fuel p f Hprog Hfuel)
    as [(Hs & Hr)|(Hs & chunks & Hch & Hne & Hr)];
    rewrite Hr; eexists; (split; [done|]);
    unfold process_file_within; rewrite Hs; cbn [negb].
  { cbn [pr_chunks length mbind option_bind].
    by rewrite bool_decide_eq_true_2 by (simpl; lia). }
  cbn [pr_chunks].
  assert (chunk_text_within heap oom fuel p (ex_text (extract_text_from_file p f))
            None None
          = Some (if bool_decide (length chunks <= heap)%nat then Ok chunks
                  else Raise oom)) as ->.
  { unfold chunk_text, chunk_text_within in *.
    destruct (Py.len _ <=? _).
    - injection Hch as <-. simpl.
      destruct (Nat.leb_spec heap 0).
      + by rewrite bool_decide_eq_false_2 by lia.
      + by rewrite bool_decide_eq_true_2 by lia.
    - case_bool_decide as Hfit.
      + by apply chunk_loop_within_agrees.
      + apply (chunk_loop_within_overflows _ _ _ _ _ _ _ _ chunks);
          [done|lia|simpl; lia]. }
  simpl. case_bool_decide; [|done].
  by destruct chunks.
Qed.

End ProcessorFacts.

(** ** Facts about decimal numbers and ids *)

Lemma str_of_nat_inj i j : Py.str_of_nat i = Py.str_of_nat j -> i = j.
Proof.
  unfold Py.str_of_nat, T. intros Heq.
  apply (f_equal string_of_list_ascii) in Heq.
  rewrite !string_of_list_ascii_of_string in Heq.
  apply (f_equal NilEmpty.uint_of_string) in Heq.
  rewrite !NilEmpty.usu in Heq. injection Heq as Heq.
  by apply DecimalNat.Unsigned.to_uint_inj.
Qed.

Lemma string_of_uint_no_underscore d :
  "_"%char ∉ list_ascii_of_string (NilEmpty.string_of_uint d).
Proof.
  induction d; simpl; [apply not_elem_of_nil|..];
    (intros [Heq|Hin]%elem_of_cons; [discriminate|done]).
Qed.

Lemma str_of_nat_no_underscore i : "_"%char ∉ Py.str_of_nat i.
Proof. apply string_of_uint_no_underscore. Qed.

(** A text that ends in an underscore and a run without underscores
    splits in one way only. *)
Lemma split_at_last_underscore (s1 s2 d1 d2 : text) :
  "_"%char ∉ d1 -> "_"%char ∉ d2 ->
  s1 ++ "_"%char :: d1 = s2 ++ "_"%char :: d2 -> s1 = s2 /\ d1 = d2.
Proof.
  intros H1 H2. revert s2.
  induction s1 as [|x s1 IH]; intros [|y s2]; simpl; intros Heq.
  - by injection Heq as ->.
  - injection Heq as <- ->. destruct H1. apply elem_of_app. right. left.
  - injection Heq as -> <-. destruct H2. apply elem_of_app. right. left.
  - injection Heq as -> Heq. destruct (IH _ Heq) as [-> ->]. done.
Qed.

Section IngestionMoreFacts.
Context `{Externals}.

(** Without a string as file name in the metadata the loop stores
    nothing. *)
Lemma add_chunks_loop_no_name self metadata i chunks n st :
  (forall name, metadata !! "filename"%string <> Some (MStr name)) ->
  stored (add_chunks_loop self metadata i chunks n st).2 = stored st.
Proof.
  intros Hno. revert i n st.
  induction chunks as [|c rest IH]; intros i n st; simpl; [done|].
  destruct (negb _); [apply IH|].
  unfold get_embedding.
  destruct (embeddings_create _ _ _) as [[e|msg] w]; [|apply (IH _ _ (mkState w _))].
  unfold doc_id. destruct (metadata !! "filename"%string) as [[name| |]|] eqn:Hm;
    try done. by destruct (Hno name).
Qed.

(** Without a file name in the metadata the loop can only stop on the
    missing key. *)
Lemma add_chunks_loop_no_filename self metadata i chunks n st msg :
  metadata !! "filename"%string = None ->
  (add_chunks_loop self metadata i chunks n st).1 = Raise msg ->
  msg = T "'filename'".
Proof.
  intros Hno. revert i n st.
  induction chunks as [|c rest IH]; intros i n st; simpl; [done|].
  destruct (negb _); [apply IH|].
  unfold get_embedding.
  destruct (embeddings_create _ _ _) as [[e|emsg] w]; [|apply (IH _ _ (mkState w _))].
  unfold doc_id. rewrite Hno. simpl. by intros [= <-].
Qed.

Lemma strip_blank s : blank s -> Py.strip s = [].
Proof.
  intros Hb. unfold Py.strip.
  assert (Py.lstrip s = []) as ->; [|done].
  induction Hb as [|x r Hx _ IH]; simpl; [done|]. by rewrite Hx.
Qed.

(** Blank chunks are passed over without a call. *)
Lemma add_chunks_loop_blank self metadata i chunks n st :
  Forall blank chunks ->
  add_chunks_loop self metadata i chunks n st = (Ok n, st).
Proof.
  intros Hblank. revert i.
  induction Hblank as [|c rest Hc _ IH]; intros i; simpl; [done|].
  rewrite (strip_blank c Hc). simpl. apply IH.
Qed.

(** With a string file name and a collection that accepts every record
    the loop runs to its end. *)
Lemma add_chunks_loop_runs self metadata name i chunks n st :
  metadata !! "filename"%string = Some (MStr name) ->
  collection_never_raises ->
  exists m, (add_chunks_loop self metadata i chunks n st).1 = Ok m.
Proof.
  intros Hname Hnever. revert i n st.
  induction chunks as [|c rest IH]; intros i n st; simpl; [by eexists|].
  destruct (negb _); [apply IH|].
  unfold get_embedding.
  destruct (embeddings_create _ _ _) as [[e|msg] w]; [|apply (IH _ _ (mkState w _))].
  unfold doc_id. rewrite Hname. unfold collection_add.
  cbn [rec_id rec_embedding rec_document rec_metadata world stored].
  destruct (Hnever (path_stem name ++ T "_" ++ Py.str_of_nat i) e c
              (<[ "chunk_id"%string := MInt (Z.of_nat i) ]> metadata) w) as [w' ->].
  apply IH.
Qed.

(** The ids of the records of a run of outcomes are those of the
    indices at which a record was stored. *)
Lemma stored_of_ids self metadata name (i : nat) (outcomes : list (option StoredRecord))
    (chunks : list text) :
  metadata !! "filename"%string = Some (MStr name) ->
  (length outcomes <= length chunks)%nat ->
  (forall (j : nat) chunk o, chunks !! j = Some chunk -> outcomes !! j = Some o ->
     outcome_ok self metadata (i + j) chunk o) ->
  exists idxs : list nat,
    map rec_id (stored_of outcomes)
    = map (fun k => path_stem name ++ T "_" ++ Py.str_of_nat k) idxs /\
    Forall (fun k => (i <= k)%nat) idxs /\ NoDup idxs.
Proof.
  intros Hname. revert i chunks.
  induction outcomes as [|o os IH]; intros i chunks Hlen Hok.
  { exists []. split; [done|]. split; constructor. }
  destruct chunks as [|c cs]; [simpl in Hlen; lia|].
  destruct (IH (S i) cs) as (idxs & Hids & Hge & Hnd).
  { simpl in Hlen. lia. }
  { intros j chunk o' Hc Ho. replace (S i + j)%nat with (i + S j)%nat by lia.
    by apply (Hok (S j)). }
  specialize (Hok 0%nat c o eq_refl eq_refl). rewrite Nat.add_0_r in Hok.
  destruct o as [r|]; simpl.
  - destruct Hok as (_ & _ & (name' & Hname' & Hid) & _).
    rewrite Hname in Hname'. injection Hname' as <-.
    exists (i :: idxs). unfold stored_of in *. simpl. rewrite Hid, Hids.
    split; [done|]. split.
    + constructor; [lia|]. eapply Forall_impl; [exact Hge|]. simpl. lia.
    + constructor; [|done]. intros Hin.
      rewrite Forall_forall in Hge. specialize (Hge i Hin). lia.
  - exists idxs. split; [done|]. split; [|done].
    eapply Forall_impl; [exact Hge|]. simpl. lia.
Qed.

(** Every file has one entry. *)
Lemma ingested_accounts run self files s successful unprocessed refused s' :
  ingested run self files s successful unprocessed refused s' ->
  map sf_file_path successful ++ map ff_file_path (unprocessed ++ refused) ≡ₚ files.
Proof.
  induction 1 as [s|f rest s r S P A s' Hr Hs Hrest IH
                  |f rest s r a s1 S P A s' Hr Hs Ha Hok Hrest IH
                  |f rest s r a s1 S P A s' Hr Hs Ha Hok Hrest IH]; simpl.
  - done.
  - rewrite <- IH. by rewrite Permutation_middle.
  - by rewrite IH.
  - rewrite <- IH. rewrite !map_app. simpl.
    rewrite !app_assoc. by rewrite <- Permutation_middle.
Qed.

(** A file whose processing fails is among the failures of the
    processing, with the error and the metadata of its result. *)
Lemma ingested_unprocessed_filed run self files s successful unprocessed refused s' f r :
  ingested run self files s successful unprocessed refused s' ->
  f ∈ files -> run f = Some r -> pr_success r = false ->
  mkFailed f (pr_error r) (pr_metadata r) ∈ unprocessed.
Proof.
  intros Hing Hf Hr Hs.
  induction Hing as [s|g rest s r' S P A s' Hr' Hs' Hrest IH
                     |g rest s r' a s1 S P A s' Hr' Hs' Ha Hok Hrest IH
                     |g rest s r' a s1 S P A s' Hr' Hs' Ha Hok Hrest IH].
  - by apply elem_of_nil in Hf.
  - apply elem_of_cons in Hf as [->|Hf].
    + rewrite Hr in Hr'. injection Hr' as <-. left.
    + right. by apply IH.
  - apply elem_of_cons in Hf as [->|Hf]; [congruence|by apply IH].
  - apply elem_of_cons in Hf as [->|Hf]; [congruence|by apply IH].
Qed.

(** The two loops of folder ingestion, taken together, for any loop
    over the files that goes the way of [process_folder_loop] with
    [run] for [process_file]: the first loop splits the files found,
    the second one adds the processed ones in order. *)
Lemma folder_loops_ingested (run : text -> option ProcessResult) self
    (loop : list text -> list ProcessedFile -> list FailedFile -> Z ->
            option (list ProcessedFile * list FailedFile * Z)) files :
  (forall processed failed total,
     loop [] processed failed total = Some (processed, failed, total)) ->
  (forall f rest processed failed total,
     loop (f :: rest) processed failed total
     = r ← run f;
       if pr_success r then
         loop rest (processed ++ [mkProcessed f (pr_chunks r) (pr_metadata r)])
           failed (total + Py.len_list (pr_chunks r))
       else
         loop rest processed
           (failed ++ [mkFailed f (pr_error r) (pr_metadata r)]) total) ->
  (forall f, f ∈ files -> is_Some (run f)) ->
  exists processed unprocessed,
    (forall processed0 failed0 total0,
       loop files processed0 failed0 total0
       = Some (processed0 ++ processed, failed0 ++ unprocessed,
               total0 + foldr (fun e acc => Py.len_list (pf_chunks e) + acc) 0 processed)) /\
    forall st n successful0 failed0,
      exists successful refused st',
        ingested run self files st successful unprocessed refused st' /\
        add_folder_loop self processed n successful0 failed0 st
        = (n + total_added successful, successful0 ++ successful,
           failed0 ++ refused, st')%nat.
Proof.
  intros Hnil Hcons.
  induction files as [|f rest IH]; intros Hret.
  { exists [], []. split.
    - intros. by rewrite Hnil, !app_nil_r, Z.add_0_r.
    - intros. exists [], [], st. split; [constructor|]. simpl.
      by rewrite !app_nil_r, Nat.add_0_r. }
  destruct (Hret f) as [r Hr]; [left|].
  destruct IH as (P & U & Hloop & Hadd).
  { intros g Hg. apply Hret. by right. }
  destruct (pr_success r) eqn:Hs.
  - exists (mkProcessed f (pr_chunks r) (pr_metadata r) :: P), U. split.
    + intros. rewrite Hcons, Hr. simpl. rewrite Hs, Hloop, <- !app_assoc. simpl.
      f_equal. f_equal. lia.
    + intros st n S0 F0. simpl.
      destruct (add_document_chunks self (pr_chunks r) (pr_metadata r) st)
        as [a st1] eqn:Ha.
      destruct (add_success a) eqn:Hok.
      * destruct (Hadd st1 (n + chunks_added a)%nat
                    (S0 ++ [mkSuccessful f (chunks_added a) (pr_metadata r)]) F0)
          as (S' & A & st' & Hing & ->).
        exists (mkSuccessful f (chunks_added a) (pr_metadata r) :: S'), A, st'.
        split; [by eapply ingested_added|].
        rewrite <- app_assoc. simpl. do 3 f_equal. lia.
      * destruct (Hadd st1 n S0
                    (F0 ++ [mkFailed f (Some (add_message a)) (pr_metadata r)]))
          as (S' & A & st' & Hing & ->).
        exists S', (mkFailed f (Some (add_message a)) (pr_metadata r) :: A), st'.
        split; [by eapply ingested_refused|].
        by rewrite <- app_assoc.
  - exists P, (mkFailed f (pr_error r) (pr_metadata r) :: U). split.
    + intros. rewrite Hcons, Hr. simpl. rewrite Hs, Hloop, <- !app_assoc. done.
    + intros st n S0 F0. destruct (Hadd st n S0 F0) as (S' & A & st' & Hing & ->).
      exists S', A, st'. split; [by eapply ingested_unprocessed|done].
Qed.

End IngestionMoreFacts.

(** ** Facts about the retrieval *)

Lemma infix_of_refl (s : text) : infix_of s s.
Proof. exists [], []. by rewrite app_nil_r. Qed.

Lemma infix_of_app_l (a s t : text) : infix_of a s -> infix_of a (s ++ t).
Proof. intros (p & q & ->). exists p, (q ++ t). by rewrite <- !app_assoc. Qed.

Lemma infix_of_app_r (a s t : text) : infix_of a t -> infix_of a (s ++ t).
Proof. intros (p & q & ->). exists (s ++ p), q. by rewrite <- !app_assoc. Qed.

Section RetrievalFacts.
Context `{Externals}.

(** Every part is a run of characters of the joined text. *)
Lemma join_infix sep (parts : list text) d :
  d ∈ parts -> infix_of d (join sep parts).
Proof.
  induction parts as [|p rest IH]; [by intros ?%elem_of_nil|].
  intros [->|Hin]%elem_of_cons; simpl.
  - destruct rest; [apply infix_of_refl|apply infix_of_app_l, infix_of_refl].
  - destruct rest as [|q rest]; [by apply elem_of_nil in Hin|].
    apply infix_of_app_r, infix_of_app_r. by apply IH.
Qed.

(** [first_row_at] raises with one message only. *)
Lemma first_row_at_raise {A B : Type} (xs : option (list (list A))) i
    (found : A -> B) fallback msg :
  first_row_at xs i found fallback = Raise msg ->
  msg = T "list index out of range".
Proof.
  unfold first_row_at. destruct xs as [[|row rest]|]; try done.
  destruct (row !! i); [done|]. by intros [= <-].
Qed.

Lemma first_row_at_covered {A B : Type} (xs : option (list (list A))) (i n : nat)
    (found : A -> B) fallback :
  row_covers xs n -> (i < n)%nat ->
  exists b, first_row_at xs i found fallback = Ok b /\
    (xs = None \/ xs = Some [] -> b = fallback) /\
    (forall row rest, xs = Some (row :: rest) ->
       exists a, row !! i = Some a /\ b = found a).
Proof.
  unfold row_covers, first_row_at. intros Hcov Hi.
  destruct xs as [[|row rest]|].
  - exists fallback. split; [done|]. split; [done|]. by intros ? ? [=].
  - destruct (lookup_lt_is_Some_2 row i) as [a Ha]; [lia|].
    rewrite Ha. exists (found a). split; [done|]. split.
    + by intros [|].
    + intros ? ? [= <- <-]. by exists a.
  - exists fallback. split; [done|]. split; [done|]. by intros ? ? [=].
Qed.

(** The sources when both rows cover the documents. *)
Lemma sources_loop_covered metadatas distances (i : nat) docs acc :
  row_covers metadatas (i + length docs) ->
  row_covers distances (i + length docs) ->
  exists srcs,
    sources_loop metadatas distances i docs acc = Ok (acc ++ srcs) /\
    map src_content srcs = docs /\
    forall (j : nat) s, srcs !! j = Some s ->
      (metadatas = None \/ metadatas = Some [] -> src_metadata s = ∅) /\
      (forall row rest, metadatas = Some (row :: rest) ->
         row !! (i + j)%nat = Some (src_metadata s)) /\
      (distances = None \/ distances = Some [] -> src_distance s = None) /\
      (forall row rest, distances = Some (row :: rest) ->
         row !! (i + j)%nat = src_distance s).
Proof.
  revert i acc. induction docs as [|d rest IH]; intros i acc Hm Hd; simpl.
  { exists []. rewrite app_nil_r. split; [done|]. split; [done|].
    intros j s Hs. by rewrite lookup_nil in Hs. }
  simpl in Hm, Hd.
  destruct (first_row_at_covered metadatas i _ id ∅ Hm) as (m & -> & Hm1 & Hm2); [lia|].
  destruct (first_row_at_covered distances i _ Some None Hd) as (dist & -> & Hd1 & Hd2);
    [lia|].
  destruct (IH (S i) (acc ++ [mkSource d m dist])) as (srcs & -> & Hc & Hrest).
  { by replace (S i + length rest)%nat with (i + S (length rest))%nat by lia. }
  { by replace (S i + length rest)%nat with (i + S (length rest))%nat by lia. }
  exists (mkSource d m dist :: srcs). rewrite <- app_assoc. split; [done|].
  split; [simpl; by f_equal|].
  intros [|j] s; simpl.
  - intros [= <-]. simpl. rewrite Nat.add_0_r. repeat split.
    + done.
    + intros row r Hrow. destruct (Hm2 row r Hrow) as (a & -> & ->). done.
    + done.
    + intros row r Hrow. destruct (Hd2 row r Hrow) as (a & -> & ->). done.
  - intros Hs. replace (i + S j)%nat with (S i + j)%nat by lia. by apply Hrest.
Qed.

Lemma first_row_at_short_next {A B : Type} (xs : option (list (list A))) (i n : nat)
    (found : A -> B) fallback b :
  row_short xs i (S n) -> first_row_at xs i found fallback = Ok b ->
  row_short xs (S i) n.
Proof.
  unfold row_short, first_row_at. destruct xs as [[|row rest]|]; try done.
  intros Hs. destruct (row !! i) eqn:Hi; [|done].
  apply lookup_lt_Some in Hi. intros _. lia.
Qed.

Lemma sources_loop_short metadatas distances (i : nat) docs acc :
  row_short metadatas i (length docs) \/ row_short distances i (length docs) ->
  sources_loop metadatas distances i docs acc = Raise (T "list index out of range").
Proof.
  revert i acc. induction docs as [|d rest IH]; intros i acc Hshort.
  { destruct Hshort as [Hs|Hs]; unfold row_short in Hs;
      [destruct metadatas as [[|? ?]|]|destruct distances as [[|? ?]|]];
      simpl in Hs; try done; lia. }
  simpl.
  destruct (first_row_at metadatas i id ∅) as [m|msg] eqn:Hm;
    [|by rewrite (first_row_at_raise _ _ _ _ _ Hm)].
  destruct (first_row_at distances i Some None) as [dist|msg] eqn:Hd;
    [|by rewrite (first_row_at_raise _ _ _ _ _ Hd)].
  apply IH. destruct Hshort as [Hs|Hs]; [left|right].
  - by apply (first_row_at_short_next _ _ _ _ _ _ Hs Hm).
  - by apply (first_row_at_short_next _ _ _ _ _ _ Hs Hd).
Qed.

End RetrievalFacts.

(** ** Further properties of the chunker *)

(** X1. Whenever [chunk_text] returns for a text longer than a
    non-negative chunk size, every chunk it returns is non-empty, has
    no whitespace at either end, is a run of consecutive characters of
    the text, and has at most [chunk_size] characters. *)
Theorem chunk_text_chunks_good fuel p txt cs_arg ov_arg chunks :
  0 <= effective_chunk_size p cs_arg ->
  effective_chunk_size p cs_arg < Py.len txt ->
  chunk_text fuel p txt cs_arg ov_arg = Some chunks ->
  Forall (fun c => c <> [] /\ stripped c /\ infix_of c txt /\
                   Py.len c <= effective_chunk_size p cs_arg) chunks.
Proof.
  intros Hcs Hlong. unfold chunk_text.
  destruct (Z.leb_spec (Py.len txt) (effective_chunk_size p cs_arg)); [lia|].
  intros Hr. destruct (chunk_loop_good _ _ _ _ _ _ _ Hcs Hr) as (new & -> & Hnew).
  exact Hnew.
Qed.

Lemma chunk_text_chunks_good_witness :
  Forall (fun c => c <> [] /\ stripped c /\
                   infix_of c (T "The cat sat.   On the mat, far away.") /\
                   Py.len c <= 12)
    [T "The cat sat."; T "t.   On the"; T "he mat, far"; T "ar away."].
Proof.
  apply (chunk_text_chunks_good 10 default_processor
           (T "The cat sat.   On the mat, far away.") (Some 12) (Some 2)).
  - by vm_compute.
  - by vm_compute.
  - by vm_compute.
Defined.

(** X2. With a positive chunk size and an overlap between 0 and 80% of
    it, [chunk_text] returns on a text longer than the chunk size, and
    a character of the text that is not whitespace lies in one of the
    chunks: the chunk list is not empty.  Every chunk is non-empty,
    without whitespace at either end, a run of characters of the text
    and at most [chunk_size] long. *)
Theorem chunk_text_some_chunk fuel p txt cs_arg ov_arg (k : nat) x :
  progressing (effective_chunk_size p cs_arg) (effective_overlap p ov_arg) ->
  effective_chunk_size p cs_arg < Py.len txt ->
  Py.len txt <= Z.of_nat fuel ->
  txt !! k = Some x -> Py.isspace x = false ->
  exists chunks,
    chunk_text fuel p txt cs_arg ov_arg = Some chunks /\
    chunks <> [] /\ (exists c, c ∈ chunks /\ x ∈ c) /\
    Forall (good_chunk txt (effective_chunk_size p cs_arg)) chunks.
Proof.
  intros Hprog Hlong Hfuel Hk Hx.
  destruct (chunk_text_keeps_char fuel p txt cs_arg ov_arg k x)
    as (chunks & Hret & Hne & Hin); try done.
  exists chunks. split; [done|]. split; [done|]. split; [done|].
  assert (0 <= effective_chunk_size p cs_arg) as Hcs by (destruct Hprog; lia).
  unfold chunk_text in Hret.
  destruct (Z.leb_spec (Py.len txt) (effective_chunk_size p cs_arg)); [lia|].
  destruct (chunk_loop_good _ _ _ _ _ _ _ Hcs Hret) as (new & -> & Hnew).
  exact Hnew.
Qed.

Lemma chunk_text_some_chunk_witness :
  exists chunks,
    chunk_text 36 default_processor (T "The cat sat.   On the mat, far away.")
      (Some 12) (Some 2) = Some chunks /\
    chunks <> [] /\ (exists c, c ∈ chunks /\ "O"%char ∈ c) /\
    Forall (good_chunk (T "The cat sat.   On the mat, far away.") 12) chunks.
Proof.
  apply (chunk_text_some_chunk 36 default_processor
           (T "The cat sat.   On the mat, far away.") (Some 12) (Some 2) 15 "O"%char).
  - by vm_compute.
  - by vm_compute.
  - by vm_compute.
  - reflexivity.
  - reflexivity.
Defined.

(** X3. With an overlap of at least a non-negative chunk size,
    [chunk_text] returns for no text longer than the chunk size,
    whatever the text holds and however much fuel it gets: the start
    offset never moves past 0. *)
Theorem chunk_text_overlap_ge_size_diverges fuel p txt cs_arg ov_arg :
  0 <= effective_chunk_size p cs_arg <= effective_overlap p ov_arg ->
  effective_chunk_size p cs_arg < Py.len txt ->
  chunk_text fuel p txt cs_arg ov_arg = None.
Proof.
  intros Hov Hlong. unfold chunk_text.
  destruct (Z.leb_spec (Py.len txt) (effective_chunk_size p cs_arg)); [lia|].
  apply chunk_loop_no_advance; [done|lia|lia].
Qed.

Lemma chunk_text_overlap_ge_size_diverges_witness :
  chunk_text 1000 default_processor (T "The cat sat. On the mat.") (Some 10) (Some 15)
  = None.
Proof.
  apply (chunk_text_overlap_ge_size_diverges 1000 default_processor
           (T "The cat sat. On the mat.") (Some 10) (Some 15)); by vm_compute.
Defined.

(** X23. In a progressing run, once a window reaches the end of the
    text, the window after it reaches the end too and its text is the
    tail of the text of the window before: from there on every window
    repeats characters that the one before already holds. *)
Theorem chunk_windows_tail_repeats fuel txt cs ov ws (i : nat) w w' :
  progressing cs ov ->
  chunk_windows fuel txt cs ov 0 = Some ws ->
  ws !! i = Some w -> ws !! S i = Some w' ->
  Py.len txt <= w.2 ->
  Py.len txt <= w'.2 /\
  Py.slice txt w'.1 w'.2
  = drop (Z.to_nat (w'.1 - w.1)) (Py.slice txt w.1 w.2).
Proof.
  intros Hprog Hws Hw Hw' Hend.
  assert (Hpos : 0 < Py.len txt).
  { destruct (Z.lt_ge_cases 0 (Py.len txt)) as [|Hnone]; [done|].
    destruct fuel; simpl in Hws;
      (destruct (Z.ltb_spec 0 (Py.len txt)); [lia|]);
      injection Hws as <-; by rewrite lookup_nil in Hw. }
  pose proof (chunk_windows_chained fuel txt cs ov 0 ws Hpos Hws) as Hch.
  destruct (chained_increasing txt cs ov 0 ws i w w' Hprog (Z.le_refl 0) Hch Hw Hw')
    as (Hlt & Hnext & Hle).
  destruct (chained_nonneg txt cs ov 0 ws w Hprog (Z.le_refl 0) Hch) as [Hw0 Hwe].
  { apply list_elem_of_lookup. eauto. }
  destruct (chained_nonneg txt cs ov 0 ws w' Hprog (Z.le_refl 0) Hch) as [Hw0' Hwe'].
  { apply list_elem_of_lookup. eauto. }
  destruct Hprog as (Hcs & Hov & H80).
  assert (Hcs0 : 0 <= cs) by lia.
  pose proof (cut_end_upper txt cs w.1 Hcs0) as Hup.
  assert (Hstart : w'.1 < Py.len txt).
  { apply (chained_start_inside txt cs ov 0 ws (S i) w'); [done|lia|done]. }
  assert (Htail : w'.2 = w'.1 + cs).
  { rewrite Hwe'. apply cut_end_tail. lia. }
  split; [lia|].
  rewrite !slice_to_end by lia.
  rewrite drop_drop. f_equal. lia.
Qed.

Lemma chunk_windows_tail_repeats_witness :
  Py.len (T "abcdefghijk") <= 12 /\
  Py.slice (T "abcdefghijk") 4 14
  = drop (Z.to_nat (4 - 2)) (Py.slice (T "abcdefghijk") 2 12).
Proof.
  destruct (chunk_windows_tail_repeats 11 (T "abcdefghijk") 10 8
              [(0, 10); (2, 12); (4, 14); (6, 16); (8, 18); (10, 20)]
              1 (2, 12) (4, 14)) as [_ Hrepeat].
  - by vm_compute.
  - by vm_compute.
  - reflexivity.
  - reflexivity.
  - by vm_compute.
  - split; [by vm_compute|exact Hrepeat].
Defined.

(** ** Further properties of extraction and processing *)

Section ProcessorExtras.
Context `{Externals}.

(** X4. A successful extraction has passed every check and is complete:
    the file exists, is not larger than the limit, its lower-cased
    extension is a supported one, the text has a character that is not
    whitespace, no error is set, and the metadata holds the file name,
    the path, the lower-cased extension, the size and the length of
    the text. *)
Theorem extraction_success_complete p f :
  ex_success (extract_text_from_file p f) = true ->
  let r := extract_text_from_file p f in
  ex_error r = None /\
  Py.truthy (Py.strip (ex_text r)) = true /\
  path_exists f = true /\
  st_size f <= max_file_size_mb p * (1024 * 1024) /\
  str_lower (path_suffix f) ∈ supported_extensions p /\
  ex_metadata r !! "filename"%string = Some (MStr (path_name f)) /\
  ex_metadata r !! "file_path"%string = Some (MStr f) /\
  ex_metadata r !! "file_extension"%string
  = Some (MStr (str_lower (path_suffix f))) /\
  ex_metadata r !! "file_size_mb"%string
  = Some (MFloatDiv (st_size f) (1024 * 1024)) /\
  ex_metadata r !! "text_length"%string = Some (MInt (Py.len (ex_text r))).
Proof.
  intros Hs r.
  destruct (extract_text_from_file_shape p f) as [(Hf & _)|(_ & Hok)].
  - congruence.
  - exact Hok.
Qed.

(** X5. A failed extraction carries no text, always carries an error
    message, and its metadata has no text length. *)
Theorem extraction_failure_empty p f :
  ex_success (extract_text_from_file p f) = false ->
  ex_text (extract_text_from_file p f) = [] /\
  is_Some (ex_error (extract_text_from_file p f)) /\
  ex_metadata (extract_text_from_file p f) !! "text_length"%string = None.
Proof.
  intros Hs.
  destruct (extract_text_from_file_shape p f) as [(_ & Hf)|(Hok & _)].
  - exact Hf.
  - congruence.
Qed.

(** X6. A file whose extension is configured as supported but is none
    of [.pdf], [.docx], [.xlsx], [.xls] is never read: the extraction
    fails with the message that no text content was extracted. *)
Theorem extraction_unhandled_extension p f :
  path_exists f = true ->
  st_size f <= max_file_size_mb p * (1024 * 1024) ->
  str_lower (path_suffix f) ∈ supported_extensions p ->
  str_lower (path_suffix f) ∉ [T ".pdf"; T ".docx"; T ".xlsx"; T ".xls"] ->
  ex_success (extract_text_from_file p f) = false /\
  ex_text (extract_text_from_file p f) = [] /\
  ex_error (extract_text_from_file p f)
  = Some (T "No text content extracted from " ++ path_name f).
Proof.
  intros Hex Hsize Hsup Hnot. unfold extract_text_from_file.
  rewrite Hex. simpl.
  destruct (Z.ltb_spec (max_file_size_mb p * (1024 * 1024)) (st_size f)); [lia|].
  rewrite (bool_decide_eq_true_2 _ Hsup). simpl.
  rewrite bool_decide_eq_false_2 by (intros Heq; apply Hnot; rewrite Heq; left).
  rewrite bool_decide_eq_false_2
    by (intros Heq; apply Hnot; rewrite Heq; right; left).
  rewrite bool_decide_eq_false_2
    by (intros Hin; apply Hnot; right; right; exact Hin).
  done.
Qed.


(** X8. A folder that does not exist, or a path that is no directory,
    ends folder ingestion at once: the failure of [process_folder] is
    handed back with empty file lists and an error that names the
    path, for any fuel, and the state is untouched: nothing is
    embedded and nothing is stored. *)
Theorem process_and_add_folder_invalid_folder fuel self folder_path st :
  path_exists folder_path = false \/ path_is_dir folder_path = false ->
  exists msg,
    process_and_add_folder fuel self folder_path st
    = Some (inl (mkFolder false [] [] 0 (Some (msg ++ folder_path))), st) /\
    (msg = T "Folder not found: " \/ msg = T "Path is not a directory: ").
Proof.
  intros Hbad. unfold process_and_add_folder, process_folder.
  destruct (path_exists folder_path) eqn:Hex; simpl.
  - destruct Hbad as [|Hdir]; [done|]. rewrite Hdir. simpl.
    exists (T "Path is not a directory: "). split; [done|by right].
  - exists (T "Folder not found: "). split; [done|by left].
Qed.

(** X9. A directory in which no file matches a supported extension is
    no failure: folder ingestion reports success with no file
    processed, no chunk added and both file lists empty, and the state
    is untouched. *)
Theorem process_and_add_folder_no_files fuel self folder_path st :
  path_exists folder_path = true -> path_is_dir folder_path = true ->
  supported_files (doc_processor self) folder_path = [] ->
  process_folder fuel (doc_processor self) folder_path
  = Some (mkFolder true [] [] 0
            (Some (T "No supported files found in " ++ folder_path))) /\
  process_and_add_folder fuel self folder_path st
  = Some (inr (mkIngestFolder true (T "Processed 0 files, added 0 chunks")
                 0 0 [] []), st).
Proof.
  intros Hex Hdir Hnone. unfold process_and_add_folder, process_folder.
  rewrite Hex, Hdir, Hnone. simpl. done.
Qed.

(** X10. [process_folder] on an existing directory, when the chunker
    returns for every file found: the successful files are the files
    found for which [process_file] succeeds, in the order found; the
    failed files are the others, in the order found; and
    [total_chunks] is the sum of the chunk counts of the successful
    files. *)
Theorem process_folder_partition fuel p folder_path :
  path_exists folder_path = true -> path_is_dir folder_path = true ->
  (forall f, f ∈ supported_files p folder_path ->
     is_Some (process_file fuel p f)) ->
  exists r,
    process_folder fuel p folder_path = Some r /\
    fr_success r = true /\
    map pf_file_path (fr_processed_files r)
    = filter (fun f => file_succeeds fuel p f = true) (supported_files p folder_path) /\
    map ff_file_path (fr_failed_files r)
    = filter (fun f => file_succeeds fuel p f <> true) (supported_files p folder_path) /\
    fr_total_chunks r
    = foldr (fun e acc => Py.len_list (pf_chunks e) + acc) 0 (fr_processed_files r).
Proof.
  intros Hex Hdir Hret. unfold process_folder. rewrite Hex, Hdir. cbn [negb].
  destruct (process_folder_loop_exact fuel p (supported_files p folder_path)
              [] [] 0 Hret) as (P & F & Hloop & HP & HF & _).
  destruct (supported_files p folder_path) as [|f files] eqn:Hsup.
  - eexists. split; [done|]. simpl. done.
  - cbv beta iota. rewrite Hloop. simpl. eexists. split; [done|]. simpl.
    split; [done|]. split; [done|]. split; [done|]. lia.
Qed.

(** X24. A chunk loop whose first window hands its own start on never
    gets past offset 0.  Where memory never runs out, [process_file]
    returns for no fuel.  Where a list holds at most [heap] chunks and
    the window is not blank, the loop appends it [heap] times and the
    next [append] raises: [process_file] returns the failure of the
    [except] branch, with no chunk, the metadata of the extraction and
    the error [Chunking error: ] followed by the text of the
    exception.  Where the window is blank, nothing is appended and
    nothing raised, and [process_file] returns for no fuel there
    either. *)
Theorem process_file_within_stalled heap oom fuel p f :
  ex_success (extract_text_from_file p f) = true ->
  let txt := ex_text (extract_text_from_file p f) in
  chunk_size p < Py.len txt ->
  cut_end txt (chunk_size p) 0 - chunk_overlap p = 0 ->
  process_file fuel p f = None /\
  process_file_within heap oom fuel p f
  = if Py.truthy (Py.strip (Py.slice txt 0 (cut_end txt (chunk_size p) 0))) then
      if (heap <? fuel)%nat then Some (chunking_failure p f oom) else None
    else None.
Proof.
  intros Hs txt Hlong Hfix.
  assert (Hpos : 0 < Py.len txt).
  { destruct (extract_text_from_file_shape p f) as [(Hf & _)|(_ & _ & Ht & _)];
      [congruence|].
    destruct (strip_truthy_elem _ Ht) as (x & Hx & _).
    fold txt in Hx. unfold Py.len. destruct txt; [by apply elem_of_nil in Hx|].
    simpl length. lia. }
  unfold process_file, process_file_within, chunk_text, chunk_text_within.
  rewrite Hs. cbn [negb]. fold txt.
  change (effective_chunk_size p None) with (chunk_size p).
  change (effective_overlap p None) with (chunk_overlap p).
  destruct (Z.leb_spec (Py.len txt) (chunk_size p)); [lia|].
  split; [by rewrite chunk_loop_stuck|].
  destruct (Py.truthy _) eqn:Ht.
  - rewrite chunk_loop_within_exhausts by done. simpl. rewrite Nat.sub_0_r.
    by destruct (heap <? fuel)%nat.
  - by rewrite chunk_loop_within_spins.
Qed.


End ProcessorExtras.

(** ** Further properties of the ingestion *)

Section IngestionExtras.
Context `{Externals}.

(** X11. Metadata without a [filename] key makes [add_document_chunks]
    fail whatever the chunks are, even when there is none: it reports
    no success, no chunk added and the missing key as the error, and
    stores no record. *)
Theorem add_document_chunks_missing_filename self chunks metadata st :
  metadata !! "filename"%string = None ->
  (add_document_chunks self chunks metadata st).1
  = mkAdd false 0 (T "Error adding chunks: 'filename'") /\
  stored (add_document_chunks self chunks metadata st).2 = stored st.
Proof.
  intros Hno.
  assert (Hname : forall name,
            metadata !! "filename"%string <> Some (MStr name)) by congruence.
  pose proof (add_chunks_loop_no_name self metadata 0 chunks 0 st Hname) as Hst.
  pose proof (add_chunks_loop_no_filename self metadata 0 chunks 0 st) as Hmsg.
  unfold add_document_chunks.
  destruct (add_chunks_loop self metadata 0 chunks 0 st) as [[n|msg] st'];
    simpl in *.
  - by rewrite Hno.
  - by rewrite (Hmsg msg Hno eq_refl).
Qed.

(** X12. Two ids are equal exactly when they are built from the same
    stem and the same chunk index: the chunks of one file never share
    an id, and two files share ids exactly when their names have the
    same stem. *)
Theorem doc_id_collision metadata1 metadata2 name1 name2 i j :
  metadata1 !! "filename"%string = Some (MStr name1) ->
  metadata2 !! "filename"%string = Some (MStr name2) ->
  doc_id metadata1 i = doc_id metadata2 j <->
  path_stem name1 = path_stem name2 /\ i = j.
Proof.
  intros H1 H2. unfold doc_id. rewrite H1, H2. split.
  - intros [= Heq].
    apply split_at_last_underscore in Heq as [Hs Hd];
      [|apply str_of_nat_no_underscore..].
    split; [done|]. by apply str_of_nat_inj.
  - by intros [-> ->].
Qed.

(** X13. The records one call of [add_document_chunks] appends to the
    collection have pairwise distinct ids. *)
Theorem add_document_chunks_distinct_ids self chunks metadata st :
  exists new,
    stored (add_document_chunks self chunks metadata st).2 = stored st ++ new /\
    NoDup (map rec_id new).
Proof.
  destruct (add_chunks_loop_outcomes self metadata 0 chunks 0 st)
    as (outcomes & Hst & Hlen & Hok & _).
  assert (Hsame : stored (add_document_chunks self chunks metadata st).2
                  = stored (add_chunks_loop self metadata 0 chunks 0 st).2).
  { unfold add_document_chunks.
    destruct (add_chunks_loop self metadata 0 chunks 0 st) as [[n|msg] st'];
      simpl; [|done]. by destruct (metadata !! "filename"%string). }
  rewrite Hsame.
  destruct (metadata !! "filename"%string) as [[name| |]|] eqn:Hname.
  - exists (stored_of outcomes). split; [done|].
    destruct (stored_of_ids self metadata name 0 outcomes chunks Hname Hlen Hok)
      as (idxs & -> & _ & Hnd).
    apply NoDup_fmap_2; [|done].
    intros a b Heq.
    apply split_at_last_underscore in Heq as [_ Hd];
      [|apply str_of_nat_no_underscore..].
    by apply str_of_nat_inj.
  - exists []. rewrite app_nil_r. split; [|constructor].
    apply add_chunks_loop_no_name. congruence.
  - exists []. rewrite app_nil_r. split; [|constructor].
    apply add_chunks_loop_no_name. congruence.
  - exists []. rewrite app_nil_r. split; [|constructor].
    apply add_chunks_loop_no_name. congruence.
Qed.

(** X14. When every chunk is blank, and in particular when there is no
    chunk, [add_document_chunks] succeeds with no chunk added and
    leaves the state as it was: the embedding service is not called
    and nothing is stored. *)
Theorem add_document_chunks_blank self chunks metadata st :
  Forall blank chunks -> is_Some (metadata !! "filename"%string) ->
  add_document_chunks self chunks metadata st
  = (mkAdd true 0 (T "Successfully added 0 chunks"), st).
Proof.
  intros Hblank [v Hv]. unfold add_document_chunks.
  rewrite add_chunks_loop_blank by done. by rewrite Hv.
Qed.

(** X15. With a string as file name and a collection that accepts every
    record, [add_document_chunks] reaches every chunk and succeeds
    whatever the embedding service does.  The chunks are settled in
    order, each in the state its predecessors left: a blank chunk and
    a chunk whose embedding call raises are left out, every other
    chunk is accepted under its own index.  The result counts the
    records accepted and names that count in its message, and the
    final state is the one the last chunk left. *)
Theorem add_document_chunks_partial_success self chunks metadata st name :
  metadata !! "filename"%string = Some (MStr name) ->
  collection_never_raises ->
  exists (outcomes : list (option StoredRecord)) (states : list State),
    traced self metadata 0 chunks st outcomes states /\
    length outcomes = length chunks /\
    stored (default st (last states)) = stored st ++ stored_of outcomes /\
    add_document_chunks self chunks metadata st
    = (mkAdd true (length (stored_of outcomes))
         (T "Successfully added " ++ Py.str_of_nat (length (stored_of outcomes))
          ++ T " chunks"),
       default st (last states)).
Proof.
  intros Hname Hnever.
  destruct (add_chunks_loop_runs self metadata name 0 chunks 0 st Hname Hnever)
    as [m Hm].
  destruct (add_chunks_loop_trace self metadata 0 chunks 0 st)
    as (outcomes & states & Htr & _ & Hst & Hn).
  destruct (Hn m Hm) as (Hfin & Hall & ->).
  exists outcomes, states. split; [done|]. split; [done|]. split; [done|].
  unfold add_document_chunks.
  destruct (add_chunks_loop self metadata 0 chunks 0 st) as [[n|msg] st'];
    simpl in *; [|done].
  injection Hm as ->. by rewrite Hname, Hfin.
Qed.




End IngestionExtras.

(** ** Further properties of the retrieval *)

Section RetrievalExtras.
Context `{Externals}.

(** X18. A result of [answer_question] that reports no success has no
    sources, and its answer is one of the two error texts, the second
    one followed by the message of the exception. *)
Theorem answer_question_failure_shape config question n_results w :
  qr_success (answer_question config question n_results w).1 = false ->
  qr_sources (answer_question config question n_results w).1 = [] /\
  (qr_answer (answer_question config question n_results w).1
   = T "Error generating query embedding" \/
   exists msg, qr_answer (answer_question config question n_results w).1
               = T "Error generating answer: " ++ msg).
Proof.
  unfold answer_question.
  destruct (get_embedding _ _ _) as [[e|] w1]; cbn [fst qr_success qr_sources qr_answer];
    [|by intros _; split; [|left]].
  destruct (collection_query _ _ _) as [[[[documents metadatas] distances]|msg] w2];
    cbn [fst qr_success qr_sources qr_answer];
    [|intros _; split; [done|right; by eexists]].
  destruct documents as [[|[|d docs] rest]|];
    cbn [fst qr_success qr_sources qr_answer]; try done.
  destruct (chat_completions_create _ _ _ _) as [[answer|msg] w3];
    cbn [fst qr_success qr_sources qr_answer];
    [|intros _; split; [done|right; by eexists]].
  destruct (sources_loop _ _ _ _ _) as [sources|msg];
    cbn [fst qr_success qr_sources qr_answer]; [done|].
  intros _. split; [done|]. right. by eexists.
Qed.

(** X19. When the embedding of the question fails, the request ends
    there: the result is the failure with the text of the embedding
    error, and the world is the one the embedding call left, so
    neither the collection nor the completion service is called. *)
Theorem answer_question_embedding_failure config question n_results w msg w1 :
  embeddings_create (CHROMA_EMBEDDING_MODEL config) question w = (Raise msg, w1) ->
  answer_question config question n_results w
  = (mkQuery false (T "Error generating query embedding") [], w1).
Proof.
  intros Hemb. unfold answer_question, get_embedding. by rewrite Hemb.
Qed.

(** X20. When the question is embedded, the collection answers with at
    least one document, the first rows of metadata and distances, if
    there are any, cover the documents, and the completion service
    answers the prompt built from the documents and the question, then
    [answer_question] succeeds with that answer and one source per
    document, in the order of the collection: source [j] holds
    document [j], the metadata at [j] (or empty metadata when the
    collection gave none) and the distance at [j] (or none). *)
Theorem answer_question_sources
    config question n_results w e w1 d docs rest metadatas distances w2 answer w3 :
  embeddings_create (CHROMA_EMBEDDING_MODEL config) question w = (Ok e, w1) ->
  collection_query e (Py.or_default n_results (DEFAULT_RETRIEVAL_K config)) w1
  = (Ok (Some ((d :: docs) :: rest), metadatas, distances), w2) ->
  row_covers metadatas (length (d :: docs)) ->
  row_covers distances (length (d :: docs)) ->
  chat_completions_create (OPENAI_MODEL config)
    (prompt_of (join (newline ++ newline) (d :: docs)) question)
    (OPENAI_TEMPERATURE config) w2 = (Ok answer, w3) ->
  exists sources,
    answer_question config question n_results w
    = (mkQuery true answer sources, w3) /\
    map src_content sources = d :: docs /\
    forall (j : nat) s, sources !! j = Some s ->
      (metadatas = None \/ metadatas = Some [] -> src_metadata s = ∅) /\
      (forall row rest', metadatas = Some (row :: rest') ->
         row !! j = Some (src_metadata s)) /\
      (distances = None \/ distances = Some [] -> src_distance s = None) /\
      (forall row rest', distances = Some (row :: rest') ->
         row !! j = src_distance s).
Proof.
  intros Hemb Hquery Hm Hd Hchat.
  destruct (sources_loop_covered metadatas distances 0 (d :: docs) [] Hm Hd)
    as (sources & Hloop & Hcontent & Hrows).
  exists sources. split; [|split; [done|exact Hrows]].
  unfold answer_question, get_embedding. rewrite Hemb, Hquery.
  cbv beta iota. rewrite Hchat. cbv beta iota. by rewrite Hloop.
Qed.

(** X21. When the first row of metadata, or of distances, is shorter
    than the list of documents, [answer_question] fails with "list
    index out of range" although the completion service has answered:
    the answer is dropped and no source is returned. *)
Theorem answer_question_short_row
    config question n_results w e w1 d docs rest metadatas distances w2 answer w3 :
  embeddings_create (CHROMA_EMBEDDING_MODEL config) question w = (Ok e, w1) ->
  collection_query e (Py.or_default n_results (DEFAULT_RETRIEVAL_K config)) w1
  = (Ok (Some ((d :: docs) :: rest), metadatas, distances), w2) ->
  row_short metadatas 0 (length (d :: docs)) \/
  row_short distances 0 (length (d :: docs)) ->
  chat_completions_create (OPENAI_MODEL config)
    (prompt_of (join (newline ++ newline) (d :: docs)) question)
    (OPENAI_TEMPERATURE config) w2 = (Ok answer, w3) ->
  answer_question config question n_results w
  = (mkQuery false (T "Error generating answer: list index out of range") [], w3).
Proof.
  intros Hemb Hquery Hshort Hchat.
  unfold answer_question, get_embedding. rewrite Hemb, Hquery.
  cbv beta iota. rewrite Hchat. cbv beta iota.
  by rewrite (sources_loop_short metadatas distances 0 (d :: docs) [] Hshort).
Qed.

(** X22. The prompt holds the question and every retrieved document
    word for word. *)
Theorem prompt_holds_documents_and_question docs question d :
  d ∈ docs ->
  infix_of d (prompt_of (join (newline ++ newline) docs) question) /\
  infix_of question (prompt_of (join (newline ++ newline) docs) question).
Proof.
  intros Hd. unfold prompt_of. split.
  - do 4 apply infix_of_app_r. apply infix_of_app_l. by apply join_infix.
  - do 7 apply infix_of_app_r. apply infix_of_app_l, infix_of_refl.
Qed.

End RetrievalExtras.

(** ** The further properties at concrete inputs *)

Lemma extraction_success_complete_witness :
  ex_error (@extract_text_from_file demo_externals default_processor (T "a.pdf"))
  = None.
Proof.
  apply (@extraction_success_complete demo_externals default_processor (T "a.pdf")).
  reflexivity.
Defined.

Lemma extraction_failure_empty_witness :
  ex_text (@extract_text_from_file demo_externals default_processor (T "b.pdf")) = [].
Proof.
  apply (@extraction_failure_empty demo_externals default_processor (T "b.pdf")).
  reflexivity.
Defined.

Lemma extraction_unhandled_extension_witness :
  ex_success (@extract_text_from_file demo_externals text_processor (T "n.txt")) = false /\
  ex_text (@extract_text_from_file demo_externals text_processor (T "n.txt")) = [] /\
  ex_error (@extract_text_from_file demo_externals text_processor (T "n.txt"))
  = Some (T "No text content extracted from n.txt").
Proof.
  apply (@extraction_unhandled_extension demo_externals text_processor (T "n.txt")).
  - reflexivity.
  - by vm_compute.
  - apply (bool_decide_unpack _). by vm_compute.
  - apply (bool_decide_unpack _). by vm_compute.
Defined.


Lemma process_and_add_folder_invalid_folder_witness :
  exists msg,
    @process_and_add_folder demo_externals 0 demo_ingestion (T "a.pdf") demo_state
    = Some (inl (mkFolder false [] [] 0 (Some (msg ++ T "a.pdf"))), demo_state) /\
    (msg = T "Folder not found: " \/ msg = T "Path is not a directory: ").
Proof.
  apply (@process_and_add_folder_invalid_folder demo_externals 0 demo_ingestion
           (T "a.pdf") demo_state).
  right. reflexivity.
Defined.

Lemma process_and_add_folder_no_files_witness :
  @process_folder demo_externals 0 (doc_processor docx_ingestion) (T "docs")
  = Some (mkFolder true [] [] 0 (Some (T "No supported files found in docs"))) /\
  @process_and_add_folder demo_externals 0 docx_ingestion (T "docs") demo_state
  = Some (inr (mkIngestFolder true (T "Processed 0 files, added 0 chunks")
                 0 0 [] []), demo_state).
Proof.
  apply (@process_and_add_folder_no_files demo_externals 0 docx_ingestion
           (T "docs") demo_state); reflexivity.
Defined.

Lemma process_folder_partition_witness :
  exists r,
    @process_folder demo_externals 20 default_processor (T "docs") = Some r /\
    fr_success r = true /\
    map pf_file_path (fr_processed_files r)
    = filter (fun f => @file_succeeds demo_externals 20 default_processor f = true)
        (@supported_files demo_externals default_processor (T "docs")) /\
    map ff_file_path (fr_failed_files r)
    = filter (fun f => @file_succeeds demo_externals 20 default_processor f <> true)
        (@supported_files demo_externals default_processor (T "docs")) /\
    fr_total_chunks r
    = foldr (fun e acc => Py.len_list (pf_chunks e) + acc) 0 (fr_processed_files r).
Proof.
  apply (@process_folder_partition demo_externals 20 default_processor (T "docs")).
  - reflexivity.
  - reflexivity.
  - intros f Hf.
    change (f ∈ [T "a.pdf"; T "b.pdf"; T "c.pdf"]) in Hf.
    repeat (apply elem_of_cons in Hf as [->|Hf]; [vm_compute; eauto|]).
    by apply elem_of_nil in Hf.
Defined.

Lemma add_document_chunks_missing_filename_witness :
  (@add_document_chunks demo_externals demo_ingestion [T "one"; T "two"] ∅ demo_state).1
  = mkAdd false 0 (T "Error adding chunks: 'filename'") /\
  stored (@add_document_chunks demo_externals demo_ingestion [T "one"; T "two"] ∅
            demo_state).2 = stored demo_state.
Proof.
  apply (@add_document_chunks_missing_filename demo_externals demo_ingestion
           [T "one"; T "two"] ∅ demo_state).
  reflexivity.
Defined.

Lemma doc_id_collision_witness :
  @doc_id demo_externals {[ "filename"%string := MStr (T "a.pdf") ]} 3
  = @doc_id demo_externals {[ "filename"%string := MStr (T "a.xls") ]} 3 <->
  @path_stem demo_externals (T "a.pdf") = @path_stem demo_externals (T "a.xls") /\
  3%nat = 3%nat.
Proof.
  apply (@doc_id_collision demo_externals
           {[ "filename"%string := MStr (T "a.pdf") ]}
           {[ "filename"%string := MStr (T "a.xls") ]} (T "a.pdf") (T "a.xls") 3 3);
    reflexivity.
Defined.

Lemma add_document_chunks_blank_witness :
  @add_document_chunks demo_externals demo_ingestion [T "  "; []; T " "] demo_metadata
    demo_state
  = (mkAdd true 0 (T "Successfully added 0 chunks"), demo_state).
Proof.
  apply (@add_document_chunks_blank demo_externals demo_ingestion
           [T "  "; []; T " "] demo_metadata demo_state).
  - repeat constructor.
  - by eexists.
Defined.

Lemma add_document_chunks_partial_success_witness :
  exists (outcomes : list (option StoredRecord)) (states : list State),
    @traced quiet_externals demo_ingestion demo_metadata 0
      [T "one"; T "???"; T "boom"] quiet_state outcomes states /\
    length outcomes = length [T "one"; T "???"; T "boom"] /\
    stored (default quiet_state (last states))
    = stored quiet_state ++ stored_of outcomes /\
    @add_document_chunks quiet_externals demo_ingestion
      [T "one"; T "???"; T "boom"] demo_metadata quiet_state
    = (mkAdd true (length (stored_of outcomes))
         (T "Successfully added " ++ Py.str_of_nat (length (stored_of outcomes))
          ++ T " chunks"),
       default quiet_state (last states)).
Proof.
  apply (@add_document_chunks_partial_success quiet_externals demo_ingestion
           [T "one"; T "???"; T "boom"] demo_metadata quiet_state (T "notes.pdf")).
  - reflexivity.
  - intros id e document metadata w. by eexists.
Defined.



Lemma answer_question_failure_shape_witness :
  qr_sources (@answer_question demo_externals demo_config (T "???") None 0%nat).1 = [].
Proof.
  apply (@answer_question_failure_shape demo_externals demo_config (T "???") None
           (0%nat : @World demo_externals)).
  reflexivity.
Defined.

Lemma answer_question_embedding_failure_witness :
  @answer_question demo_externals demo_config (T "???") None 0%nat
  = (mkQuery false (T "Error generating query embedding") [],
     1%nat : @World demo_externals).
Proof.
  apply (@answer_question_embedding_failure demo_externals demo_config (T "???") None
           (0%nat : @World demo_externals) (T "rate limit")).
  reflexivity.
Defined.

Lemma answer_question_sources_witness :
  exists sources,
    @answer_question quiet_externals quiet_config (T "why?") (Some 2) 0%nat
    = (mkQuery true (T "42") sources, 3%nat : @World quiet_externals) /\
    map src_content sources = [T "alpha"; T "beta"].
Proof.
  destruct (@answer_question_sources quiet_externals quiet_config (T "why?") (Some 2)
              (0%nat : @World quiet_externals) 4 (1%nat : @World quiet_externals)
              (T "alpha") [T "beta"] []
              (Some [[ {[ "filename"%string := MStr (T "a.pdf") ]};
                       {[ "filename"%string := MStr (T "c.pdf") ]} ]])
              (Some [[1; 4]]) (2%nat : @World quiet_externals) (T "42")
              (3%nat : @World quiet_externals))
    as (sources & Hrun & Hcontent & _).
  - reflexivity.
  - reflexivity.
  - simpl. lia.
  - simpl. lia.
  - reflexivity.
  - exists sources. split; [exact Hrun|exact Hcontent].
Defined.

Lemma answer_question_short_row_witness :
  @answer_question quiet_externals quiet_config (T "why?") (Some 3) 0%nat
  = (mkQuery false (T "Error generating answer: list index out of range") [],
     3%nat : @World quiet_externals).
Proof.
  apply (@answer_question_short_row quiet_externals quiet_config (T "why?") (Some 3)
           (0%nat : @World quiet_externals) 4 (1%nat : @World quiet_externals)
           (T "alpha") [T "beta"] []
           (Some [[ {[ "filename"%string := MStr (T "a.pdf") ]} ]])
           None (2%nat : @World quiet_externals) (T "42")).
  - reflexivity.
  - reflexivity.
  - left. simpl. lia.
  - reflexivity.
Defined.

Lemma prompt_holds_documents_and_question_witness :
  infix_of (T "beta")
    (@prompt_of (join (newline ++ newline) [T "alpha"; T "beta"]) (T "why?")) /\
  infix_of (T "why?")
    (@prompt_of (join (newline ++ newline) [T "alpha"; T "beta"]) (T "why?")).
Proof.
  apply (@prompt_holds_documents_and_question [T "alpha"; T "beta"] (T "why?") (T "beta")).
  right. left.
Defined.

Lemma process_file_within_stalled_witness :
  @process_file padded_externals 4 even_processor (T "run.pdf") = None /\
  @process_file_within padded_externals 3 (T "out of memory") 4 even_processor (T "run.pdf")
  = Some (@chunking_failure padded_externals even_processor (T "run.pdf") (T "out of memory")).
Proof.
  apply (@process_file_within_stalled padded_externals 3 (T "out of memory") 4
           even_processor (T "run.pdf")); by vm_compute.
Defined.


